(** * Stop detection of scikit-mobility: [skmob/preprocessing/detection.py]

    A shallow embedding of [_stops_array], [_stops_trajectory] and [stops],
    and the properties of the stop detector stated over it.

    Numbers.  Python floats are idealised as rationals [Q]: every property
    below is about control flow, list shapes and which input value ends up
    where, none is about rounding.  The one float operation that can raise,
    the division of line 138, is modelled with its [ZeroDivisionError].
    A timestamp is a pandas [Timestamp], a count of nanoseconds, here a [Z]. *)

From Stdlib Require Import ZArith QArith Qabs Lia List Sorting.Mergesort Orders.
From stdpp Require Import base option list gmap strings.

#[local] Open Scope Q_scope.
#[local] Open Scope nat_scope.

(** ** Python values, exceptions and sequences *)

(** The exceptions the modelled code can meet. *)
Inductive PyExc := IndexError | ZeroDivisionError | TypeError | ValueError.

Inductive result (A : Type) : Type :=
| Ok (a : A)
| Raise (e : PyExc).
Arguments Ok {A} a.
Arguments Raise {A} e.

#[global] Instance result_ret : MRet result := λ A, @Ok A.
#[global] Instance result_bind : MBind result :=
  λ A B f m, match m with Ok a => f a | Raise e => Raise e end.

(** A cell of a data frame, an entry of an arguments dictionary. *)
Inductive PyVal :=
| VStr (s : string)
| VFloat (q : Q)
| VBool (b : bool)
| VTime (t : Z)
| VNone.

(** [a < b] on floats. *)
Definition Qltb (a b : Q) : bool := negb (Qle_bool b a).

(** [a / b] on floats: a zero divisor raises. *)
Definition py_div (a b : Q) : result Q :=
  if Qeq_bool b 0 then Raise ZeroDivisionError else Ok (a / b)%Q.

(** [l[-j]]: counted from the end for [j >= 1] ([l[-0]] is [l[0]]);
    out of range raises [IndexError]. *)
Definition py_neg_index {A} (l : list A) (j : nat) : result A :=
  match j with
  | O => match l !! 0 with Some x => Ok x | None => Raise IndexError end
  | S _ =>
      if j <=? length l
      then match l !! (length l - j) with Some x => Ok x | None => Raise IndexError end
      else Raise IndexError
  end.

(** [l[:-j]]: all but the last [j] items ([l[:-0]] is [l[:0]], empty);
    slicing never raises. *)
Definition py_drop_last {A} (l : list A) (j : nat) : list A :=
  match j with
  | O => []
  | S _ => take (length l - j) l
  end.

(** *** [numpy.median] *)

Module QOrder <: TotalLeBool.
Definition t := Q.
Definition leb : Q → Q → bool := Qle_bool.
Lemma leb_total (x y : Q) : leb x y = true ∨ leb y x = true.
Proof.
  unfold leb. destruct (Qle_bool x y) eqn:E; [by left | right].
  apply Qle_bool_iff. apply Qlt_le_weak. apply Qnot_le_lt.
  intros H. apply Qle_bool_iff in H. congruence.
Qed.
End QOrder.

Module QSort := Sort QOrder.

(** The middle of the sorted sequence, or the mean of the two middle items.
    numpy answers [nan] on an empty sequence: [None] here. *)
Definition np_median (l : list Q) : option Q :=
  let s := QSort.sort l in
  let n := length s in
  if n =? 0 then None
  else if Nat.even n
       then a ← s !! (n / 2 - 1); b ← s !! (n / 2); Some ((a + b) / 2)%Q
       else s !! (n / 2).

(** ** Data model *)

(** A row of [lat_lng_dtime_other]: latitude, longitude, timestamp, then
    the other columns ([row[:3]] and [row[3:]]). *)
Record Row := mkRow {
  lat : Q;
  lng : Q;
  dtime : Z;
  other : list PyVal
}.

(** A row of the result, [[median lat, median lon, t_0] + extra_cols]. *)
Record Stop := mkStop {
  s_lat : option Q;
  s_lng : option Q;
  s_t : Z;
  s_extra : list PyVal
}.

(** The local variables of [_stops_array] that live across iterations. *)
Record State := mkState {
  stops_l : list Stop;
  leaving_times : list Z;
  lat_0 : Q;
  lon_0 : Q;
  t_0 : Z;
  sum_lat : list Q;
  sum_lon : list Q;
  sum_t : list Z;
  speeds_kmh : list Q;
  count : nat
}.

(** The parameters of [_stops_array] after the point sequence. *)
Record Config := mkConfig {
  stop_radius : Q;
  minutes_for_a_stop : Q;
  leaving_time : bool;
  no_data_for_minutes : Q;
  min_speed_kmh : option Q
}.

(** Modelled from the spec: [utils.diff_seconds], the elapsed seconds from
    the first instant to the second, [(t_1 - t_0).total_seconds()]. *)
Definition diff_seconds (t0 t1 : Z) : Q := Qmake (t1 - t0) 1000000000.

(** Elapsed minutes, the [diff_seconds(a, b) / 60.] of lines 128 and 135. *)
Definition diff_minutes (t0 t1 : Z) : Q := (diff_seconds t0 t1 / 60)%Q.

(** ** The detector: [_stops_array] *)

Section Detector.

(** [gislib.getDistance], the great-circle distance in km between two
    [[lat, lon]] pairs; it is not part of this file of the repository. *)
Variable measure_distance : Q * Q → Q * Q → Q.

(** Lines 117-121: the accumulator anchored at the first row. *)
Definition init_state (r0 : Row) : State :=
  {| stops_l := []; leaving_times := [];
     lat_0 := lat r0; lon_0 := lng r0; t_0 := dtime r0;
     sum_lat := [lat r0]; sum_lon := [lng r0]; sum_t := [dtime r0];
     speeds_kmh := []; count := 1 |}.

(** Lines 130-133, 167-170 and 173-176, the same four statements:
    a new anchor and empty sequences. *)
Definition reanchor (st : State) (cur : Row) : State :=
  {| stops_l := stops_l st; leaving_times := leaving_times st;
     lat_0 := lat cur; lon_0 := lng cur; t_0 := dtime cur;
     sum_lat := []; sum_lon := []; sum_t := [];
     speeds_kmh := []; count := 0 |}.

(** Line 128: more than [no_data_for_minutes] since the previous row. *)
Definition is_gap (cfg : Config) (prev cur : Row) : bool :=
  Qltb (no_data_for_minutes cfg) (diff_minutes (dtime prev) (dtime cur)).

(** Lines 137-140: the speed sample, [0.] when the division raises. *)
Definition speed_sample (Dr Dt : Q) : result Q :=
  match (q ← py_div Dr Dt; mret (q * 60)%Q) with
  | Raise ZeroDivisionError => Ok 0%Q
  | r => r
  end.

(** Lines 150-153: [j = 1], then the [for j in range(1, len(speeds_kmh))]
    loop with its [break]; the answer is the value [j] is left with. *)
Fixpoint scan_range (speeds : list Q) (ms : Q) (js : list nat) (j : nat) : result nat :=
  match js with
  | [] => Ok j
  | j' :: js' =>
      s ← py_neg_index speeds j';
      if Qltb s ms then Ok j' else scan_range speeds ms js' j'
  end.

Definition backward_scan (speeds : list Q) (ms : Q) : result nat :=
  scan_range speeds ms (seq 1 (length speeds - 1)) 1.

(** Lines 147-159: the leaving time and the visited coordinates that are
    kept for the medians. *)
Definition estimate_leaving (st : State) (min_speed : option Q) (t : Z)
  : result (Z * list Q * list Q) :=
  match min_speed with
  | None => Ok (t, sum_lat st, sum_lon st)
  | Some ms =>
      j ← backward_scan (speeds_kmh st) ms;
      if j =? 1 then Ok (t, sum_lat st, sum_lon st)
      else
        tj ← py_neg_index (sum_t st) j;
        Ok (tj, py_drop_last (sum_lat st) j, py_drop_last (sum_lon st) j)
  end.

(** Lines 161-165: the stop is recorded when a latitude is left. *)
Definition emit (cfg : Config) (st : State) (est : Z) (lats lons : list Q)
    (extra_cols : list PyVal) : State :=
  if 0 <? length lats then
    {| stops_l := stops_l st ++ [mkStop (np_median lats) (np_median lons) (t_0 st) extra_cols];
       leaving_times := if leaving_time cfg then leaving_times st ++ [est] else leaving_times st;
       lat_0 := lat_0 st; lon_0 := lon_0 st; t_0 := t_0 st;
       sum_lat := lats; sum_lon := lons; sum_t := sum_t st;
       speeds_kmh := speeds_kmh st; count := count st |}
  else
    {| stops_l := stops_l st; leaving_times := leaving_times st;
       lat_0 := lat_0 st; lon_0 := lon_0 st; t_0 := t_0 st;
       sum_lat := lats; sum_lon := lons; sum_t := sum_t st;
       speeds_kmh := speeds_kmh st; count := count st |}.

(** Lines 178-181: the current row joins the accumulator. *)
Definition accumulate (st : State) (cur : Row) : State :=
  {| stops_l := stops_l st; leaving_times := leaving_times st;
     lat_0 := lat_0 st; lon_0 := lon_0 st; t_0 := t_0 st;
     sum_lat := sum_lat st ++ [lat cur]; sum_lon := sum_lon st ++ [lng cur];
     sum_t := sum_t st ++ [dtime cur];
     speeds_kmh := speeds_kmh st; count := S (count st) |}.

Definition with_speed (st : State) (v : Q) : State :=
  {| stops_l := stops_l st; leaving_times := leaving_times st;
     lat_0 := lat_0 st; lon_0 := lon_0 st; t_0 := t_0 st;
     sum_lat := sum_lat st; sum_lon := sum_lon st; sum_t := sum_t st;
     speeds_kmh := speeds_kmh st ++ [v]; count := count st |}.

(** Lines 126-181, the body of the loop at index [i]: [prev] is row [i],
    [cur] is row [i+1]. *)
Definition loop_body (cfg : Config) (prev cur : Row) (st : State) : result State :=
  let st1 := if is_gap cfg prev cur then reanchor st cur else st in
  let Dt := diff_minutes (t_0 st1) (dtime cur) in
  let Dr := measure_distance (lat_0 st1, lon_0 st1) (lat cur, lng cur) in
  v ← speed_sample Dr Dt;
  let st2 := with_speed st1 v in
  st3 ← (if Qltb (stop_radius cfg) Dr then
           if Qltb (minutes_for_a_stop cfg) Dt then
             let extra_cols := other prev in
             '(est, lats, lons) ← estimate_leaving st2 (min_speed_kmh cfg) (dtime cur);
             Ok (reanchor (emit cfg st2 est lats lons extra_cols) cur)
           else Ok (reanchor st2 cur)
         else Ok st2);
  Ok (accumulate st3 cur).

(** One turn of [for i in range(lendata)]: rows [i] and [i+1] are read by
    index. *)
Definition iteration (cfg : Config) (pts : list Row) (st : State) (i : nat) : result State :=
  match pts !! i, pts !! S i with
  | Some prev, Some cur => loop_body cfg prev cur st
  | _, _ => Raise IndexError
  end.

Fixpoint for_range (f : State → nat → result State) (idx : list nat) (st : State)
  : result State :=
  match idx with
  | [] => Ok st
  | i :: idx' => st' ← f st i; for_range f idx' st'
  end.

(** The state at the head of iteration [n], after iterations [0 .. n-1].
    Line 117 reads row [0] and raises on an empty sequence. *)
Definition state_at (cfg : Config) (pts : list Row) (n : nat) : result State :=
  match pts !! 0 with
  | None => Raise IndexError
  | Some r0 => for_range (iteration cfg pts) (seq 0 n) (init_state r0)
  end.

(** [_stops_array]: [lendata = len(lat_lng_dtime_other) - 1] iterations,
    then [return stops, leaving_times]. *)
Definition stops_array (cfg : Config) (pts : list Row) : result (list Stop * list Z) :=
  st ← state_at cfg pts (length pts - 1);
  Ok (stops_l st, leaving_times st).

End Detector.


(** ** Anchors, runs and emissions over the raw sequence *)

Section Runs.

Variable measure_distance : Q * Q → Q * Q → Q.
Variable cfg : Config.
Variable pts : list Row.

(** Row [i] of the sequence (only used at indices within range). *)
Definition row (i : nat) : Row := default (mkRow 0 0 0 []) (pts !! i).

(** Distance in km and elapsed minutes from row [a] to row [k]. *)
Definition Dr_of (a k : nat) : Q :=
  measure_distance (lat (row a), lng (row a)) (lat (row k), lng (row k)).

Definition Dt_of (a k : nat) : Q := diff_minutes (dtime (row a)) (dtime (row k)).

(** Row [k] comes more than [no_data_for_minutes] after row [k-1]. *)
Definition gap_at (k : nat) : bool :=
  match k with
  | O => false
  | S k' => is_gap cfg (row k') (row k)
  end.

(** Row [k] is farther than [stop_radius] from row [a]. *)
Definition exits_radius (a k : nat) : bool := Qltb (stop_radius cfg) (Dr_of a k).

(** Row [k] ends the run anchored at row [a]: by a gap or by distance. *)
Definition leaves (a k : nat) : bool := gap_at k || exits_radius a k.

(** The index of the anchor in force once rows [0 .. n] have been read. *)
Fixpoint anchor_at (n : nat) : nat :=
  match n with
  | O => O
  | S n' => if leaves (anchor_at n') (S n') then S n' else anchor_at n'
  end.

(** Row [a] is an anchor: the first row, or a row that ended the run of the
    anchor before it. *)
Definition is_anchor (a : nat) : Prop :=
  a = 0 ∨ ∃ a', a = S a' ∧ leaves (anchor_at a') a = true.

(** The anchor at [a] was set by a data gap and kept by the radius test
    that the same iteration runs on the row against itself. *)
Definition gap_anchor (a : nat) : bool := gap_at a && negb (exits_radius a a).

(** Rows [a .. n] of the sequence. *)
Definition rows_from_to (a n : nat) : list Row := take (S n - a) (drop a pts).

(** The shape of the accumulator at the head of iteration [n]. *)
Definition acc_inv (n : nat) (st : State) : Prop :=
  let a := anchor_at n in
  lat_0 st = lat (row a) ∧ lon_0 st = lng (row a) ∧ t_0 st = dtime (row a) ∧
  sum_lat st = lat <$> rows_from_to a n ∧
  sum_lon st = lng <$> rows_from_to a n ∧
  sum_t st = dtime <$> rows_from_to a n ∧
  length (speeds_kmh st) = n - a + (if gap_anchor a then 1 else 0).

(** What lines 135-159 compute for row [cur] on the accumulator [st]: the
    speed sample is appended, then the leaving time is estimated. *)
Definition exit_estimate (st : State) (cur : Row) : result (Z * list Q * list Q) :=
  let Dt := diff_minutes (t_0 st) (dtime cur) in
  let Dr := measure_distance (lat_0 st, lon_0 st) (lat cur, lng cur) in
  v ← speed_sample Dr Dt;
  estimate_leaving (with_speed st v) (min_speed_kmh cfg) (dtime cur).

(** Iteration [n], which reads row [n+1], appends the stop [s]. *)
Definition emitted_at (n : nat) (s : Stop) : Prop :=
  ∃ st st', state_at measure_distance cfg pts n = Ok st ∧
            state_at measure_distance cfg pts (S n) = Ok st' ∧
            stops_l st' = stops_l st ++ [s].

(** Iteration [n] appends the stop [s] and the leaving time [d]. *)
Definition emitted_with (n : nat) (s : Stop) (d : Z) : Prop :=
  ∃ st st', state_at measure_distance cfg pts n = Ok st ∧
            state_at measure_distance cfg pts (S n) = Ok st' ∧
            stops_l st' = stops_l st ++ [s] ∧
            leaving_times st' = leaving_times st ++ [d].

(** What iteration [n] does to the output, from the state [st] at its head
    to the state [st'] after it: nothing, or one stop and its leaving time. *)
Inductive step_outcome (n : nat) (st st' : State) : Prop :=
| step_silent :
    (gap_at (S n) = true ∨
     exits_radius (anchor_at n) (S n) = false ∨
     Qltb (minutes_for_a_stop cfg) (Dt_of (anchor_at n) (S n)) = false ∨
     ∃ est lons, exit_estimate st (row (S n)) = Ok (est, [], lons)) →
    stops_l st' = stops_l st →
    leaving_times st' = leaving_times st →
    step_outcome n st st'
| step_emit (est : Z) (lats lons : list Q) :
    gap_at (S n) = false →
    exits_radius (anchor_at n) (S n) = true →
    Qltb (minutes_for_a_stop cfg) (Dt_of (anchor_at n) (S n)) = true →
    exit_estimate st (row (S n)) = Ok (est, lats, lons) →
    lats ≠ [] →
    stops_l st' =
      stops_l st ++ [mkStop (np_median lats) (np_median lons) (t_0 st) (other (row n))] →
    leaving_times st' =
      (if leaving_time cfg then leaving_times st ++ [est] else leaving_times st) →
    step_outcome n st st'.

(** The estimate of iteration [n] keeps at least one visited latitude. *)
Definition keeps_some (n : nat) : Prop :=
  ∃ st est lats lons,
    state_at measure_distance cfg pts n = Ok st ∧
    exit_estimate st (row (S n)) = Ok (est, lats, lons) ∧
    lats ≠ [].

(** The run of the specification: rows [a .. e-1] stay within
    [stop_radius] of the anchor [a] with no data gap, row [e] is not after a
    gap and is out of the radius, and more than [minutes_for_a_stop] have
    elapsed from the anchor to row [e]. *)
Definition stop_run (a e : nat) : Prop :=
  is_anchor a ∧ a < e < length pts ∧
  (∀ k, a < k < e → gap_at k = false ∧ (Dr_of a k <= stop_radius cfg)%Q) ∧
  gap_at e = false ∧
  (stop_radius cfg < Dr_of a e)%Q ∧
  (minutes_for_a_stop cfg < Dt_of a e)%Q.

(** Timestamps never decrease along the sequence. *)
Definition time_ordered : Prop :=
  ∀ i j, i ≤ j → j < length pts → (dtime (row i) ≤ dtime (row j))%Z.

End Runs.

(** ** The backward scan, stated *)

(** The sample at backward offset [k] is strictly below the threshold. *)
Definition below (speeds : list Q) (ms : Q) (k : nat) : Prop :=
  ∃ s, py_neg_index speeds k = Ok s ∧ Qltb s ms = true.

(** Where the loop of lines 150-153 leaves [j]: only the offsets
    [1 .. len(speeds_kmh) - 1] are looked at, the oldest sample never is;
    the loop stops at the first offset below the threshold, and when there
    is none [j] keeps the last offset looked at. *)
Definition scan_stops_at (speeds : list Q) (ms : Q) (j : nat) : Prop :=
  1 ≤ j ∧ (j = 1 ∨ j < length speeds) ∧
  (∀ k, 1 ≤ k < j → ¬ below speeds ms k) ∧
  (below speeds ms j ∨
   (j = Nat.max 1 (length speeds - 1) ∧ ∀ k, 1 ≤ k < length speeds → ¬ below speeds ms k)).

(** ** The departure rule as the specification words it *)

(** The backward offset of the most recent sample strictly below the
    threshold, searched through the whole speed sequence ([rev_speeds] is
    the sequence read from its most recent sample). *)
Fixpoint most_recent_below (rev_speeds : list Q) (ms : Q) (j : nat) : option nat :=
  match rev_speeds with
  | [] => None
  | s :: older => if Qltb s ms then Some j else most_recent_below older ms (S j)
  end.

(** Found at offset [j]: the timestamp [j] positions from the end, the last
    [j] coordinates trimmed; not found: the timestamp of the exit row and no
    trimming. *)
Definition spec_leaving (st : State) (ms : Q) (t : Z) : result (Z * list Q * list Q) :=
  match most_recent_below (reverse (speeds_kmh st)) ms 1 with
  | Some j =>
      tj ← py_neg_index (sum_t st) j;
      Ok (tj, py_drop_last (sum_lat st) j, py_drop_last (sum_lon st) j)
  | None => Ok (t, sum_lat st, sum_lon st)
  end.

(** ** The callers: [_stops_trajectory] and [stops] *)

(** A [TrajDataFrame] as far as this file reads and writes it: the names of
    the columns other than latitude, longitude and time, in the order in
    which [utils.to_matrix] lays their cells out in each row ([other] for a
    row read, [s_extra] for a stop), the rows, and the [parameters]
    dictionary. *)
Record Frame (R : Type) := mkFrame {
  columns : list string;
  rows : list R;
  parameters : gmap string (gmap string PyVal)
}.
Arguments mkFrame {R} columns rows parameters.
Arguments columns {R} f.
Arguments rows {R} f.
Arguments parameters {R} f.

(** The cells of a row with [v] in every column named [name]. *)
Definition put_cell (cols : list string) (name : string) (v : PyVal)
    (cells : list PyVal) : list PyVal :=
  imap (λ i x, if decide (cols !! i = Some name) then v else x) cells.

(** The stop with [v] in its column [name]: the cell is overwritten when
    the frame has such a column, and added after the others when not. *)
Definition with_cell (cols : list string) (name : string) (v : PyVal) (s : Stop) : Stop :=
  mkStop (s_lat s) (s_lng s) (s_t s)
    (if decide (name ∈ cols) then put_cell cols name v (s_extra s) else s_extra s ++ [v]).

(** The frame after [frame.loc[:, name] = values], for as many values as
    rows and a name other than latitude, longitude and time. *)
Definition with_column (name : string) (values : list PyVal) (f : Frame Stop) : Frame Stop :=
  mkFrame (if decide (name ∈ columns f) then columns f else columns f ++ [name])
          (zip_with (with_cell (columns f) name) values (rows f))
          (parameters f).

(** [frame.loc[:, name] = values]: pandas raises [ValueError] when the
    values are not as many as the rows. *)
Definition set_column (name : string) (values : list PyVal) (f : Frame Stop)
  : result (Frame Stop) :=
  if length values =? length (rows f) then Ok (with_column name values f)
  else Raise ValueError.

(** [v * f] for a dictionary entry [v] and a float [f]. *)
Definition py_mul (v : PyVal) (f : Q) : result Q :=
  match v with
  | VFloat q => Ok (q * f)%Q
  | VBool b => Ok ((if b then 1 else 0) * f)%Q
  | VStr _ | VTime _ | VNone => Raise TypeError
  end.

(** Lines 51-53: the dictionary of the call's arguments, [tdf] left out. *)
Definition detection_arguments (stop_radius_factor minutes_for_a_stop spatial_radius_km : Q)
    (leaving_time : bool) (no_data_for_minutes : Q) (min_speed_kmh : option Q)
  : gmap string PyVal :=
  list_to_map
    [("function", VStr "stops");
     ("stop_radius_factor", VFloat stop_radius_factor);
     ("minutes_for_a_stop", VFloat minutes_for_a_stop);
     ("spatial_radius_km", VFloat spatial_radius_km);
     ("leaving_time", VBool leaving_time);
     ("no_data_for_minutes", VFloat no_data_for_minutes);
     ("min_speed_kmh", match min_speed_kmh with Some q => VFloat q | None => VNone end)].

Section Callers.

Variable measure_distance : Q * Q → Q * Q → Q.

(** What [stops] uses of the rest of the repository and of pandas; none of
    it is in this file.  [groupby_apply cols f tdf] stands for
    [tdf.groupby(cols, ...).apply(f, ...)]. *)
Variable sort_by_uid_and_datetime : Frame Row → Frame Row.
Variable is_multi_user is_multi_trajectory : Frame Row → bool.
Variable groupby_apply :
  list string → (Frame Row → result (Frame Stop)) → Frame Row → result (Frame Stop).
Variable UID TID COMPRESSION_PARAMS DETECTION_PARAMS : string.

(** Lines 84-103.  The stops come back with the columns of the input
    (lines 87-98: every column of the input is a cell of the rows, and the
    cells of a stop are those of the row before the exit row), so a column
    ['leaving_datetime'] of the input is carried like any other; line 101
    then sets that column, overwriting it or adding it. *)
Definition stops_trajectory (cfg : Config) (tdf : Frame Row) : result (Frame Stop) :=
  '(stops, leaving_times) ← stops_array measure_distance cfg (rows tdf);
  let stops := mkFrame (columns tdf) stops ∅ in
  if leaving_time cfg
  then set_column "leaving_datetime" (VTime <$> leaving_times) stops
  else Ok stops.

(** Lines 63-66: the radius recorded by a compression, else the argument. *)
Definition resolve_spatial_radius (params : gmap string (gmap string PyVal))
    (spatial_radius_km : Q) : PyVal :=
  match params !! COMPRESSION_PARAMS ≫= (λ d, d !! "spatial_radius_km") with
  | Some v => v
  | None => VFloat spatial_radius_km
  end.

(** Lines 69-77: one call of [_stops_trajectory] per group, or one call. *)
Definition dispatch (cfg : Config) (tdf : Frame Row) : result (Frame Stop) :=
  let groupby :=
    (if is_multi_user tdf then [UID] else []) ++
    (if is_multi_trajectory tdf then [TID] else []) in
  if 0 <? length groupby
  then groupby_apply groupby (stops_trajectory cfg) tdf
  else stops_trajectory cfg tdf.

(** Lines 79-80: [stdf.parameters = tdf.parameters], then
    [set_parameter(DETECTION_PARAMS, arguments)]. *)
Definition with_provenance (stdf : Frame Stop)
    (params : gmap string (gmap string PyVal)) (arguments : gmap string PyVal)
  : Frame Stop :=
  mkFrame (columns stdf) (rows stdf) (<[DETECTION_PARAMS := arguments]> params).

(** [stops], lines 47-81. *)
Definition stops (tdf : Frame Row) (stop_radius_factor minutes_for_a_stop spatial_radius_km : Q)
    (leaving_time : bool) (no_data_for_minutes : Q) (min_speed_kmh : option Q)
  : result (Frame Stop) :=
  let tdf := sort_by_uid_and_datetime tdf in
  let arguments :=
    detection_arguments stop_radius_factor minutes_for_a_stop spatial_radius_km
      leaving_time no_data_for_minutes min_speed_kmh in
  let spatial_radius_km := resolve_spatial_radius (parameters tdf) spatial_radius_km in
  stop_radius ← py_mul spatial_radius_km stop_radius_factor;
  stdf ← dispatch (mkConfig stop_radius minutes_for_a_stop leaving_time
                     no_data_for_minutes min_speed_kmh) tdf;
  Ok (with_provenance stdf (parameters tdf) arguments).

End Callers.

(** ** Switching [leaving_time] *)

#[global] Instance result_fmap : FMap result :=
  λ A B f m, match m with Ok a => Ok (f a) | Raise e => Raise e end.

(** The configuration with the [leaving_time] flag set to [b]. *)
Definition set_leaving_time (cfg : Config) (b : bool) : Config :=
  mkConfig (stop_radius cfg) (minutes_for_a_stop cfg) b
           (no_data_for_minutes cfg) (min_speed_kmh cfg).

(** The state without its leaving times. *)
Definition drop_leaving (st : State) : State :=
  {| stops_l := stops_l st; leaving_times := [];
     lat_0 := lat_0 st; lon_0 := lon_0 st; t_0 := t_0 st;
     sum_lat := sum_lat st; sum_lon := sum_lon st; sum_t := sum_t st;
     speeds_kmh := speeds_kmh st; count := count st |}.

(** ** Sample trajectories *)

(** A distance for the samples: 111 km per degree along a meridian and
    along a parallel.  All sample rows lie on the meridian 0, where the
    great-circle distance is 111.19 km per degree. *)
Definition meridian_distance (p q : Q * Q) : Q :=
  (111 * (Qabs (p.1 - q.1) + Qabs (p.2 - q.2)))%Q.

(** The instant [m] minutes after the epoch. *)
Definition minute (m : Z) : Z := (m * 60 * 1000000000)%Z.

(** A row at latitude [la] on the meridian 0, at minute [m], tagged. *)
Definition at_lat (la : Q) (m : Z) (tag : string) : Row :=
  mkRow la 0 (minute m) [VStr tag].

(** Four rows within 200 m over 30 minutes, then a row 111 km away. *)
Definition walk_stay : list Row :=
  [at_lat 0 0 "a"; at_lat 0 5 "b"; at_lat (1 # 1000) 10 "c"; at_lat 0 30 "d";
   at_lat 1 35 "e"].

(** Three rows within 200 m, 10 minutes apart, then a row 111 km away. *)
Definition walk_drift : list Row :=
  [at_lat 0 0 "a"; at_lat (1 # 1000) 10 "b"; at_lat (1 # 1000) 20 "c"; at_lat 1 30 "d"].

(** A row, then after 100 minutes without data two rows within 200 m,
    30 minutes apart, then a row 111 km away. *)
Definition walk_gap : list Row :=
  [at_lat 0 0 "a"; at_lat 0 100 "b"; at_lat (1 # 1000) 130 "c"; at_lat 1 160 "d"].

(** Radius 200 m, 20 minutes, leaving times on, gaps never. *)
Definition cfg_plain : Config :=
  mkConfig (2 # 10) 20 true 1000000000000 None.

(** The same with a speed threshold of 0.1 km/h and gaps from 60 minutes. *)
Definition cfg_slow : Config :=
  mkConfig (2 # 10) 20 true 60 (Some (1 # 10)).

(** The same with a speed threshold of 500 km/h. *)
Definition cfg_fast : Config :=
  mkConfig (2 # 10) 20 true 60 (Some 500%Q).

(** The accumulator of [walk_drift] when its last row is tested: the three
    visited rows and the three speed samples, 0.666, 0.333 and 222 km/h. *)
Definition drift_acc : State :=
  {| stops_l := []; leaving_times := [];
     lat_0 := 0; lon_0 := 0; t_0 := minute 0;
     sum_lat := [0; 1 # 1000; 1 # 1000]%Q; sum_lon := [0; 0; 0]%Q;
     sum_t := [minute 0; minute 10; minute 20];
     speeds_kmh := [666 # 1000; 333 # 1000; 222]%Q; count := 3 |}.

(** Two rows 5 minutes apart within 200 m, then a row 111 km away at
    minute 10. *)
Definition walk_short : list Row :=
  [at_lat 0 0 "a"; at_lat (1 # 1000) 5 "b"; at_lat 1 10 "c"].

(** Two rows at the same place 2000 minutes apart, then a row 111 km away
    30 minutes later. *)
Definition walk_silence : list Row :=
  [at_lat 0 0 "a"; at_lat 0 2000 "b"; at_lat 1 2030 "c"].

(** Radius 200 m, 20 minutes, leaving times on, gaps from 60 minutes. *)
Definition cfg_gaps : Config :=
  mkConfig (2 # 10) 20 true 60 None.

(** [walk_stay] as a frame with a tag column and a ['leaving_datetime']
    column of its own, which holds ["kept"] in every row. *)
Definition kept_frame : Frame Row :=
  mkFrame ["tag"; "leaving_datetime"]
    ((λ r, mkRow (lat r) (lng r) (dtime r) (other r ++ [VStr "kept"])) <$> walk_stay) ∅.

(** [walk_stay] as a frame with a tag column, compressed before with the
    radius 1 km. *)
Definition compressed_frame : Frame Row :=
  mkFrame ["tag"] walk_stay {["compress" := {["spatial_radius_km" := VFloat 1]}]}.

(** ** Emissions with their estimate *)

Section Emissions.

Variable measure_distance : Q * Q → Q * Q → Q.
Variable cfg : Config.
Variable pts : list Row.

(** Iteration [n] appends the stop [s], and [est] is the leaving time that
    lines 147-159 estimate for it (appended too when [leaving_time] is on). *)
Definition emission (n : nat) (s : Stop) (est : Z) : Prop :=
  emitted_at measure_distance cfg pts n s ∧
  ∃ st lats lons,
    state_at measure_distance cfg pts n = Ok st ∧
    exit_estimate measure_distance cfg st (row pts (S n)) = Ok (est, lats, lons) ∧
    lats ≠ [] ∧
    s = mkStop (np_median lats) (np_median lons) (t_0 st) (other (row pts n)).

End Emissions.

(** ** Shifting the clock *)

(** The row, the stop and the state with every timestamp moved by [c]. *)
Definition shift_row (c : Z) (r : Row) : Row :=
  mkRow (lat r) (lng r) (dtime r + c) (other r).

Definition shift_stop (c : Z) (s : Stop) : Stop :=
  mkStop (s_lat s) (s_lng s) (s_t s + c) (s_extra s).

Definition shift_state (c : Z) (st : State) : State :=
  {| stops_l := shift_stop c <$> stops_l st;
     leaving_times := (λ t, t + c)%Z <$> leaving_times st;
     lat_0 := lat_0 st; lon_0 := lon_0 st; t_0 := t_0 st + c;
     sum_lat := sum_lat st; sum_lon := sum_lon st;
     sum_t := (λ t, t + c)%Z <$> sum_t st;
     speeds_kmh := speeds_kmh st; count := count st |}.

(** The output of [_stops_array] with every timestamp moved by [c]. *)
Definition shift_output (c : Z) (out : list Stop * list Z) : list Stop * list Z :=
  (shift_stop c <$> out.1, (λ t, t + c)%Z <$> out.2).

(** ** Switching [min_speed_kmh] off *)

(** The configuration with [min_speed_kmh] unset. *)
Definition unset_min_speed (cfg : Config) : Config :=
  mkConfig (stop_radius cfg) (minutes_for_a_stop cfg) (leaving_time cfg)
           (no_data_for_minutes cfg) None.
(** ** Elementary facts about the Python operations *)

Lemma Qltb_lt (a b : Q) : Qltb a b = true ↔ (a < b)%Q.
Proof.
  unfold Qltb. rewrite negb_true_iff. split.
  - intros H. apply Qnot_le_lt. intros Hle. apply Qle_bool_iff in Hle. congruence.
  - intros H. destruct (Qle_bool b a) eqn:E; [|done].
    apply Qle_bool_iff in E. exfalso. by apply (Qlt_not_le a b).
Qed.

Lemma Qltb_ge (a b : Q) : Qltb a b = false ↔ (b <= a)%Q.
Proof.
  unfold Qltb. rewrite negb_false_iff. apply Qle_bool_iff.
Qed.

Lemma diff_minutes_same (t : Z) : Qeq_bool (diff_minutes t t) 0 = true.
Proof.
  unfold diff_minutes, diff_seconds. rewrite Z.sub_diag. reflexivity.
Qed.

Lemma py_div_zero (a b : Q) : Qeq_bool b 0 = true → py_div a b = Raise ZeroDivisionError.
Proof. unfold py_div. by intros ->. Qed.

Lemma py_neg_index_Ok {A} (l : list A) (j : nat) :
  1 ≤ j ≤ length l → ∃ x, py_neg_index l j = Ok x ∧ l !! (length l - j) = Some x.
Proof.
  intros [H1 H2]. unfold py_neg_index. destruct j as [|j]; [lia|].
  destruct (Nat.leb_spec (S j) (length l)) as [_|?]; [|lia].
  destruct (lookup_lt_is_Some_2 l (length l - S j)) as [x Hx]; [lia|].
  exists x. by rewrite Hx.
Qed.

Lemma py_neg_index_inv {A} (l : list A) (j : nat) (x : A) :
  1 ≤ j → py_neg_index l j = Ok x → j ≤ length l ∧ l !! (length l - j) = Some x.
Proof.
  intros H1. unfold py_neg_index. destruct j as [|j]; [lia|].
  destruct (Nat.leb_spec (S j) (length l)) as [Hle|?]; [|done].
  destruct (l !! (length l - S j)) eqn:E; [|done].
  intros [= ->]. done.
Qed.

Lemma py_drop_last_length {A} (l : list A) (j : nat) :
  1 ≤ j → length (py_drop_last l j) = length l - j.
Proof.
  intros H. destruct j as [|j]; [lia|]. simpl. rewrite length_take. lia.
Qed.

Lemma np_median_is_Some (l : list Q) : l ≠ [] → is_Some (np_median l).
Proof.
  intros Hl. unfold np_median.
  assert (Hlen : length (QSort.sort l) = length l).
  { symmetry. apply Permutation_length, QSort.Permuted_sort. }
  rewrite Hlen.
  assert (0 < length l) as Hpos by (destruct l; [done | simpl; lia]).
  destruct (Nat.eqb_spec (length l) 0) as [?|_]; [lia|].
  assert (length l / 2 < length l) as Hhalf by (apply Nat.div_lt; lia).
  destruct (Nat.even (length l)).
  - destruct (lookup_lt_is_Some_2 (QSort.sort l) (length l / 2 - 1)) as [a ->]; [lia|].
    destruct (lookup_lt_is_Some_2 (QSort.sort l) (length l / 2)) as [b ->]; [lia|].
    by eexists.
  - apply lookup_lt_is_Some_2. lia.
Qed.

Lemma speed_sample_total (Dr Dt : Q) : ∃ v, speed_sample Dr Dt = Ok v.
Proof.
  unfold speed_sample, py_div. destruct (Qeq_bool Dt 0); simpl; eauto.
Qed.

Lemma speed_sample_zero (Dr Dt : Q) : Qeq_bool Dt 0 = true → speed_sample Dr Dt = Ok 0%Q.
Proof. intros H. unfold speed_sample. by rewrite (py_div_zero _ _ H). Qed.

Lemma speed_sample_nonzero (Dr Dt : Q) :
  Qeq_bool Dt 0 = false → speed_sample Dr Dt = Ok (Dr / Dt * 60)%Q.
Proof. intros H. unfold speed_sample, py_div. by rewrite H. Qed.

(** *** The backward scan *)

Lemma scan_range_spec (speeds : list Q) (ms : Q) (m : nat) :
  ∀ a j0, 1 ≤ a → j0 ≤ a → a + m ≤ S (length speeds) →
    ∃ j, scan_range speeds ms (seq a m) j0 = Ok j ∧
         (match m with O => j = j0 | S _ => a ≤ j < a + m end) ∧
         (∀ k, a ≤ k < j → ¬ below speeds ms k) ∧
         (below speeds ms j ∨
          (j = match m with O => j0 | S _ => a + m - 1 end ∧
           ∀ k, a ≤ k < a + m → ¬ below speeds ms k)).
Proof.
  induction m as [|m IH]; intros a j0 Ha Hj0 Hlen.
  - exists j0. simpl. split; [done|]. split; [done|]. split; [intros k ?; lia|].
    right. split; [done|]. intros k ?; lia.
  - simpl. destruct (py_neg_index_Ok speeds a) as (s & Hs & _); [lia|].
    rewrite Hs. simpl. destruct (Qltb s ms) eqn:Hlt.
    + exists a. split; [done|]. split; [lia|]. split; [intros k ?; lia|].
      left. by exists s.
    + assert (¬ below speeds ms a) as Hna.
      { intros (s' & Hs' & Hlt'). congruence. }
      destruct (IH (S a) a) as (j & Hj & Hrange & Hbefore & Hstop); [lia|lia|lia|].
      exists j. split; [done|].
      assert (a ≤ j < a + S m) as Hj' by (destruct m; lia).
      split; [done|]. split.
      * intros k Hk. destruct (decide (k = a)) as [->|]; [done|]. apply Hbefore. lia.
      * destruct Hstop as [?|[Heq Hall]]; [by left|right]. split.
        -- destruct m; lia.
        -- intros k Hk. destruct (decide (k = a)) as [->|]; [done|]. apply Hall. lia.
Qed.

Lemma backward_scan_spec (speeds : list Q) (ms : Q) :
  ∃ j, backward_scan speeds ms = Ok j ∧ scan_stops_at speeds ms j.
Proof.
  unfold backward_scan.
  destruct (scan_range_spec speeds ms (length speeds - 1) 1 1) as (j & Hj & Hr & Hb & Hs);
    [lia|lia|lia|].
  exists j. split; [done|]. unfold scan_stops_at.
  destruct (length speeds - 1) as [|m] eqn:Hm.
  - subst j. split; [lia|]. split; [by left|]. split; [intros k ?; lia|].
    right. split; [lia|]. intros k ?; lia.
  - split; [lia|]. split; [right; lia|]. split; [done|].
    destruct Hs as [?|[Heq Hall]]; [by left|right]. split; [lia|].
    intros k Hk. apply Hall. lia.
Qed.

Lemma scan_stops_at_unique (speeds : list Q) (ms : Q) (j j' : nat) :
  scan_stops_at speeds ms j → scan_stops_at speeds ms j' → j = j'.
Proof.
  intros (H1 & Hr & Hb & Hs) (H1' & Hr' & Hb' & Hs').
  destruct (Nat.lt_trichotomy j j') as [Hlt|[->|Hlt]]; [|done|].
  - destruct Hs as [Hbel|[Heq Hall]].
    + exfalso. apply (Hb' j); [lia|done].
    + lia.
  - destruct Hs' as [Hbel|[Heq Hall]].
    + exfalso. apply (Hb j'); [lia|done].
    + lia.
Qed.

(** ** One iteration, case by case *)

Section Steps.

Variable measure_distance : Q * Q → Q * Q → Q.
Variable cfg : Config.


Lemma estimate_leaving_total (st : State) (ms : option Q) (t : Z) :
  length (speeds_kmh st) ≤ S (length (sum_t st)) →
  ∃ r, estimate_leaving st ms t = Ok r.
Proof.
  intros Hlen. unfold estimate_leaving. destruct ms as [ms|]; [|eauto].
  destruct (backward_scan_spec (speeds_kmh st) ms) as (j & -> & H1 & Hr & _).
  simpl. destruct (Nat.eqb_spec j 1) as [_|Hne]; [eauto|].
  destruct (py_neg_index_Ok (sum_t st) j) as (tj & -> & _); [lia|].
  simpl. eauto.
Qed.

(** After a data gap: the accumulator is anchored at the row, and the rest
    of the body runs on the row against itself. *)
Lemma loop_body_gap (prev cur : Row) (st : State) :
  is_gap cfg prev cur = true →
  loop_body measure_distance cfg prev cur st =
    Ok (accumulate
          (if Qltb (stop_radius cfg) (measure_distance (lat cur, lng cur) (lat cur, lng cur))
           then reanchor st cur
           else with_speed (reanchor st cur) 0%Q) cur).
Proof.
  intros Hgap. unfold loop_body. rewrite Hgap. cbn [t_0 lat_0 lon_0 reanchor].
  rewrite (speed_sample_zero _ _ (diff_minutes_same (dtime cur))). cbn [mbind result_bind].
  destruct (Qltb (stop_radius cfg) _); [|done].
  destruct (Qltb (minutes_for_a_stop cfg) _); [|done].
  unfold estimate_leaving. destruct (min_speed_kmh cfg) as [ms|]; done.
Qed.

Lemma loop_body_stay (prev cur : Row) (st : State) (v : Q) :
  is_gap cfg prev cur = false →
  Qltb (stop_radius cfg) (measure_distance (lat_0 st, lon_0 st) (lat cur, lng cur)) = false →
  speed_sample (measure_distance (lat_0 st, lon_0 st) (lat cur, lng cur))
               (diff_minutes (t_0 st) (dtime cur)) = Ok v →
  loop_body measure_distance cfg prev cur st = Ok (accumulate (with_speed st v) cur).
Proof.
  intros Hgap Hr Hv. unfold loop_body. rewrite Hgap, Hv. cbn [mbind result_bind].
  by rewrite Hr.
Qed.

Lemma loop_body_short (prev cur : Row) (st : State) :
  is_gap cfg prev cur = false →
  Qltb (stop_radius cfg) (measure_distance (lat_0 st, lon_0 st) (lat cur, lng cur)) = true →
  Qltb (minutes_for_a_stop cfg) (diff_minutes (t_0 st) (dtime cur)) = false →
  loop_body measure_distance cfg prev cur st = Ok (accumulate (reanchor st cur) cur).
Proof.
  intros Hgap Hr Hm. unfold loop_body. rewrite Hgap.
  destruct (speed_sample_total
              (measure_distance (lat_0 st, lon_0 st) (lat cur, lng cur))
              (diff_minutes (t_0 st) (dtime cur))) as [v ->].
  cbn [mbind result_bind]. by rewrite Hr, Hm.
Qed.

Lemma loop_body_long (prev cur : Row) (st : State) :
  is_gap cfg prev cur = false →
  Qltb (stop_radius cfg) (measure_distance (lat_0 st, lon_0 st) (lat cur, lng cur)) = true →
  Qltb (minutes_for_a_stop cfg) (diff_minutes (t_0 st) (dtime cur)) = true →
  loop_body measure_distance cfg prev cur st =
    match exit_estimate measure_distance cfg st cur with
    | Ok (est, lats, lons) =>
        Ok (accumulate
              (reanchor
                 {| stops_l :=
                      if 0 <? length lats
                      then stops_l st ++ [mkStop (np_median lats) (np_median lons) (t_0 st) (other prev)]
                      else stops_l st;
                    leaving_times :=
                      if (0 <? length lats) && leaving_time cfg
                      then leaving_times st ++ [est]
                      else leaving_times st;
                    lat_0 := lat_0 st; lon_0 := lon_0 st; t_0 := t_0 st;
                    sum_lat := lats; sum_lon := lons; sum_t := sum_t st;
                    speeds_kmh := speeds_kmh st; count := count st |} cur) cur)
    | Raise e => Raise e
    end.
Proof.
  intros Hgap Hr Hm. unfold loop_body, exit_estimate. rewrite Hgap.
  destruct (speed_sample_total
              (measure_distance (lat_0 st, lon_0 st) (lat cur, lng cur))
              (diff_minutes (t_0 st) (dtime cur))) as [v ->].
  cbn [mbind result_bind]. rewrite Hr, Hm.
  destruct (estimate_leaving _ _ _) as [[[est lats] lons]|e]; [|done].
  cbn [mbind result_bind]. unfold emit.
  destruct (0 <? length lats), (leaving_time cfg); reflexivity.
Qed.

End Steps.

(** ** The accumulator along a run *)

Section Invariant.

Variable measure_distance : Q * Q → Q * Q → Q.
Variable cfg : Config.
Variable pts : list Row.

Lemma for_range_app (f : State → nat → result State) (l1 l2 : list nat) (st : State) :
  for_range f (l1 ++ l2) st = st' ← for_range f l1 st; for_range f l2 st'.
Proof.
  revert st. induction l1 as [|i l1 IH]; intros st; [done|].
  simpl. destruct (f st i) as [st'|e]; [|done]. apply IH.
Qed.

Lemma state_at_S (n : nat) :
  state_at measure_distance cfg pts (S n) =
    st ← state_at measure_distance cfg pts n; iteration measure_distance cfg pts st n.
Proof.
  unfold state_at. destruct (pts !! 0) as [r0|]; [|done].
  rewrite seq_S, for_range_app. simpl.
  destruct (for_range _ (seq 0 n) _) as [st|e]; [|done].
  simpl. by destruct (iteration _ _ _ _ _).
Qed.

Lemma row_lookup (i : nat) : i < length pts → pts !! i = Some (row pts i).
Proof.
  intros Hi. unfold row. by destruct (lookup_lt_is_Some_2 pts i Hi) as [r ->].
Qed.

Lemma iteration_rows (st : State) (n : nat) :
  S n < length pts →
  iteration measure_distance cfg pts st n =
    loop_body measure_distance cfg (row pts n) (row pts (S n)) st.
Proof.
  intros Hn. unfold iteration. by rewrite !row_lookup by lia.
Qed.

Lemma anchor_at_le (n : nat) : anchor_at measure_distance cfg pts n ≤ n.
Proof.
  induction n as [|n IH]; simpl; [lia|]. destruct (leaves _ _ _ _ _); lia.
Qed.

Lemma rows_from_to_single (n : nat) :
  n < length pts → rows_from_to pts n n = [row pts n].
Proof.
  intros Hn. unfold rows_from_to. replace (S n - n) with 1 by lia.
  rewrite (drop_S pts (row pts n) n) by by apply row_lookup. done.
Qed.

Lemma rows_from_to_snoc (a n : nat) :
  a ≤ n → S n < length pts →
  rows_from_to pts a (S n) = rows_from_to pts a n ++ [row pts (S n)].
Proof.
  intros Ha Hn. unfold rows_from_to. replace (S (S n) - a) with (S (S n - a)) by lia.
  apply take_S_r. rewrite lookup_drop. replace (a + (S n - a)) with (S n) by lia.
  by apply row_lookup.
Qed.

Lemma rows_from_to_length (a n : nat) :
  a ≤ n → n < length pts → length (rows_from_to pts a n) = S n - a.
Proof.
  intros Ha Hn. unfold rows_from_to. rewrite length_take, length_drop. lia.
Qed.

Lemma rows_from_to_lookup (a n i : nat) :
  a ≤ n → n < length pts → i ≤ n - a →
  rows_from_to pts a n !! i = Some (row pts (a + i)).
Proof.
  intros Ha Hn Hi. unfold rows_from_to. rewrite lookup_take_lt by lia.
  rewrite lookup_drop. apply row_lookup. lia.
Qed.

Lemma acc_inv_init : 0 < length pts → acc_inv measure_distance cfg pts 0 (init_state (row pts 0)).
Proof.
  intros Hlen. unfold acc_inv. cbn [anchor_at]. rewrite rows_from_to_single by done.
  repeat split.
Qed.

(** The accumulator keeps its shape through an iteration, which does not
    raise. *)
Lemma iteration_inv (n : nat) (st : State) :
  S n < length pts → acc_inv measure_distance cfg pts n st →
  ∃ st', iteration measure_distance cfg pts st n = Ok st' ∧
         acc_inv measure_distance cfg pts (S n) st'.
Proof.
  intros Hn (Hlat & Hlon & Ht & Hslat & Hslon & Hst & Hsp).
  rewrite iteration_rows by done.
  pose proof (anchor_at_le n) as Hle.
  set (a := anchor_at measure_distance cfg pts n) in *.
  assert (Hrun : length (rows_from_to pts a n) = S n - a)
    by (apply rows_from_to_length; lia).
  unfold acc_inv. cbn [anchor_at]. fold a. unfold leaves. cbn [gap_at].
  destruct (is_gap cfg (row pts n) (row pts (S n))) eqn:Hgap.
  - (* data gap *)
    rewrite loop_body_gap by done. eexists; split; [done|]. cbn [orb].
    rewrite rows_from_to_single by lia.
    unfold gap_anchor, exits_radius, Dr_of. cbn [gap_at]. rewrite Hgap. cbn [andb].
    destruct (Qltb (stop_radius cfg) _); cbn; repeat split; lia.
  - cbn [orb]. unfold exits_radius, Dr_of. rewrite <- Hlat, <- Hlon.
    destruct (Qltb (stop_radius cfg)
                (measure_distance (lat_0 st, lon_0 st) (lat (row pts (S n)), lng (row pts (S n)))))
      eqn:Hr.
    + (* out of the radius *)
      assert (Hga : gap_anchor measure_distance cfg pts (S n) = false).
      { unfold gap_anchor. cbn [gap_at]. by rewrite Hgap. }
      rewrite Hga, rows_from_to_single by lia.
      destruct (Qltb (minutes_for_a_stop cfg) (diff_minutes (t_0 st) (dtime (row pts (S n)))))
        eqn:Hm.
      * rewrite loop_body_long by done. unfold exit_estimate.
        destruct (speed_sample_total
                    (measure_distance (lat_0 st, lon_0 st)
                       (lat (row pts (S n)), lng (row pts (S n))))
                    (diff_minutes (t_0 st) (dtime (row pts (S n))))) as [v ->].
        cbn [mbind result_bind].
        destruct (estimate_leaving_total (with_speed st v) (min_speed_kmh cfg)
                    (dtime (row pts (S n)))) as [[[est lats] lons] ->].
        { cbn. rewrite length_app, Hst, length_fmap, Hrun, Hsp. cbn.
          destruct (gap_anchor _ _ _ _); lia. }
        eexists; split; [done|]. cbn. repeat split; lia.
      * rewrite loop_body_short by done. eexists; split; [done|].
        cbn. repeat split; lia.
    + (* within the radius *)
      destruct (speed_sample_total
                  (measure_distance (lat_0 st, lon_0 st)
                     (lat (row pts (S n)), lng (row pts (S n))))
                  (diff_minutes (t_0 st) (dtime (row pts (S n))))) as [v Hv].
      rewrite (loop_body_stay _ _ _ _ _ v) by done. eexists; split; [done|].
      rewrite rows_from_to_snoc by lia. rewrite !fmap_app. cbn.
      rewrite Hlat, Hlon, Ht, Hslat, Hslon, Hst, length_app, Hsp. cbn.
      repeat split; try done. destruct (gap_anchor _ _ _ _); lia.
Qed.

(** Every iteration of a run on a non-empty sequence is reached without an
    exception, with the accumulator in shape. *)
Lemma state_at_inv (n : nat) :
  n < length pts →
  ∃ st, state_at measure_distance cfg pts n = Ok st ∧
        acc_inv measure_distance cfg pts n st.
Proof.
  induction n as [|n IH]; intros Hn.
  - exists (init_state (row pts 0)). split; [|by apply acc_inv_init].
    unfold state_at. by rewrite row_lookup by done.
  - destruct IH as (st & Hst & Hinv); [lia|].
    destruct (iteration_inv n st Hn Hinv) as (st' & Hit & Hinv').
    exists st'. split; [|done]. by rewrite state_at_S, Hst.
Qed.

End Invariant.

(** ** What an iteration appends *)

Section Outcome.

Variable measure_distance : Q * Q → Q * Q → Q.
Variable cfg : Config.
Variable pts : list Row.

Lemma state_at_Ok_lt (n : nat) (st : State) :
  state_at measure_distance cfg pts n = Ok st → n < length pts.
Proof.
  destruct n as [|n].
  - unfold state_at. destruct (pts !! 0) eqn:E; [|done].
    intros _. by apply lookup_lt_Some in E.
  - rewrite state_at_S. destruct (state_at _ _ _ n) as [st0|e]; [|done].
    cbn [mbind result_bind]. unfold iteration.
    destruct (pts !! n); [|done]. destruct (pts !! S n) eqn:E; [|done].
    intros _. by apply lookup_lt_Some in E.
Qed.

Lemma state_at_acc_inv (n : nat) (st : State) :
  state_at measure_distance cfg pts n = Ok st → acc_inv measure_distance cfg pts n st.
Proof.
  intros Hst. destruct (state_at_inv measure_distance cfg pts n) as (st0 & Hst0 & Hinv).
  - by eapply state_at_Ok_lt.
  - congruence.
Qed.

Lemma state_at_step (n : nat) (st st' : State) :
  state_at measure_distance cfg pts n = Ok st →
  state_at measure_distance cfg pts (S n) = Ok st' →
  loop_body measure_distance cfg (row pts n) (row pts (S n)) st = Ok st'.
Proof.
  intros Hst Hst'. pose proof (state_at_Ok_lt _ _ Hst') as Hn.
  rewrite state_at_S, Hst in Hst'. cbn [mbind result_bind] in Hst'.
  by rewrite iteration_rows in Hst'.
Qed.

Lemma step_outcome_holds (n : nat) (st st' : State) :
  state_at measure_distance cfg pts n = Ok st →
  state_at measure_distance cfg pts (S n) = Ok st' →
  step_outcome measure_distance cfg pts n st st'.
Proof.
  intros Hst Hst'. pose proof (state_at_step n st st' Hst Hst') as Hbody.
  destruct (state_at_acc_inv n st Hst) as (Hlat & Hlon & Ht & _).
  set (a := anchor_at measure_distance cfg pts n) in *.
  assert (HDr : Dr_of measure_distance pts a (S n) =
                measure_distance (lat_0 st, lon_0 st)
                  (lat (row pts (S n)), lng (row pts (S n)))).
  { unfold Dr_of. by rewrite Hlat, Hlon. }
  assert (HDt : Dt_of pts a (S n) = diff_minutes (t_0 st) (dtime (row pts (S n)))).
  { unfold Dt_of. by rewrite Ht. }
  destruct (is_gap cfg (row pts n) (row pts (S n))) eqn:Hgap.
  { rewrite loop_body_gap in Hbody by done. injection Hbody as <-.
    apply step_silent; [by left| |]; by destruct (Qltb _ _). }
  destruct (exits_radius measure_distance cfg pts a (S n)) eqn:Hr.
  all: pose proof Hr as Hr'; unfold exits_radius in Hr'; rewrite HDr in Hr'.
  2:{ destruct (speed_sample_total
                  (measure_distance (lat_0 st, lon_0 st)
                     (lat (row pts (S n)), lng (row pts (S n))))
                  (diff_minutes (t_0 st) (dtime (row pts (S n))))) as [v Hv].
      rewrite (loop_body_stay _ _ _ _ _ v) in Hbody by done. injection Hbody as <-.
      apply step_silent; [|done|done]. right; left. exact Hr. }
  destruct (Qltb (minutes_for_a_stop cfg) (Dt_of pts a (S n))) eqn:Hm.
  all: pose proof Hm as Hm'; rewrite HDt in Hm'.
  2:{ rewrite loop_body_short in Hbody by done. injection Hbody as <-.
      apply step_silent; [|done|done]. right; right; left. exact Hm. }
  rewrite loop_body_long in Hbody by done.
  destruct (exit_estimate measure_distance cfg st (row pts (S n)))
    as [[[est lats] lons]|e] eqn:Hest; [|done].
  injection Hbody as <-. destruct lats as [|x lats].
  - apply step_silent; [|done|done]. right; right; right. by exists est, lons.
  - by apply (step_emit _ _ _ _ _ _ est (x :: lats) lons).
Qed.

(** The two outcomes exclude each other. *)
Lemma app_singleton_neq {A} (l : list A) (x : A) : l ++ [x] ≠ l.
Proof.
  intros H. apply (f_equal length) in H. rewrite length_app in H. simpl in H. lia.
Qed.

Lemma emitted_at_lt (n : nat) (s : Stop) :
  emitted_at measure_distance cfg pts n s → S n < length pts.
Proof. intros (st & st' & _ & Hst' & _). by eapply state_at_Ok_lt. Qed.

(** An iteration that appends a stop went through lines 144-165. *)
Lemma emitted_at_inv (n : nat) (s : Stop) :
  emitted_at measure_distance cfg pts n s →
  ∃ st est lats lons,
    state_at measure_distance cfg pts n = Ok st ∧
    gap_at cfg pts (S n) = false ∧
    exits_radius measure_distance cfg pts (anchor_at measure_distance cfg pts n) (S n) = true ∧
    Qltb (minutes_for_a_stop cfg)
         (Dt_of pts (anchor_at measure_distance cfg pts n) (S n)) = true ∧
    exit_estimate measure_distance cfg st (row pts (S n)) = Ok (est, lats, lons) ∧
    lats ≠ [] ∧
    s = mkStop (np_median lats) (np_median lons) (t_0 st) (other (row pts n)) ∧
    (leaving_time cfg = true → emitted_with measure_distance cfg pts n s est).
Proof.
  intros (st & st' & Hst & Hst' & Happ).
  destruct (step_outcome_holds n st st' Hst Hst')
    as [_ Hsame _|est lats lons Hg Hr Hm Hest Hne Hs Hl].
  - rewrite Hsame in Happ. symmetry in Happ. by apply app_singleton_neq in Happ.
  - rewrite Hs in Happ. apply app_inj_tail in Happ as [_ <-].
    exists st, est, lats, lons. repeat split; try done.
    intros Hlt. exists st, st'. rewrite Hlt in Hl. done.
Qed.

End Outcome.

(** ** The output as the trace of the iterations *)

Section Trace.

Variable measure_distance : Q * Q → Q * Q → Q.
Variable cfg : Config.
Variable pts : list Row.

(** An iteration that appends a stop and a leaving time: the leaving time
    is the estimate of lines 147-159. *)
Lemma emitted_with_inv (n : nat) (s : Stop) (d : Z) :
  emitted_with measure_distance cfg pts n s d →
  ∃ st lats lons,
    state_at measure_distance cfg pts n = Ok st ∧
    acc_inv measure_distance cfg pts n st ∧
    S n < length pts ∧
    exit_estimate measure_distance cfg st (row pts (S n)) = Ok (d, lats, lons) ∧
    lats ≠ [] ∧
    s = mkStop (np_median lats) (np_median lons) (t_0 st) (other (row pts n)).
Proof.
  intros (st & st' & Hst & Hst' & Happ & Hlv).
  destruct (step_outcome_holds _ _ _ n st st' Hst Hst')
    as [_ Hsame _|est lats lons Hg Hr Hm Hest Hne Hs Hl].
  - rewrite Hsame in Happ. symmetry in Happ. by apply app_singleton_neq in Happ.
  - rewrite Hs in Happ. apply app_inj_tail in Happ as [_ <-].
    rewrite Hl in Hlv. destruct (leaving_time cfg).
    + apply app_inj_tail in Hlv as [_ <-].
      exists st, lats, lons. split; [done|]. split; [by apply state_at_acc_inv|].
      split; [by eapply state_at_Ok_lt|]. done.
    + symmetry in Hlv. by apply app_singleton_neq in Hlv.
Qed.

Lemma emitted_with_at (n : nat) (s : Stop) (d : Z) :
  emitted_with measure_distance cfg pts n s d → emitted_at measure_distance cfg pts n s.
Proof. intros (st & st' & ? & ? & ? & _). by exists st, st'. Qed.

(** The stops collected so far are the stops appended by the iterations
    so far, in their order. *)
Lemma stops_trace (n : nat) (st : State) :
  state_at measure_distance cfg pts n = Ok st →
  ∃ tr : list (nat * Stop),
    stops_l st = tr.*2 ∧
    Forall (λ e, e.1 < n ∧ emitted_at measure_distance cfg pts e.1 e.2) tr ∧
    ∀ m s, m < n → emitted_at measure_distance cfg pts m s → (m, s) ∈ tr.
Proof.
  revert st. induction n as [|n IH]; intros st Hst.
  - exists []. split; [|split; [constructor|intros; lia]].
    unfold state_at in Hst. destruct (pts !! 0); [|done]. by injection Hst as <-.
  - pose proof (state_at_Ok_lt _ _ _ _ _ Hst) as Hlt.
    destruct (state_at_inv measure_distance cfg pts n) as (st0 & Hst0 & _); [lia|].
    destruct (IH st0 Hst0) as (tr & Htr & Hall & Hin).
    assert (Hall' : Forall (λ e, e.1 < S n ∧ emitted_at measure_distance cfg pts e.1 e.2) tr).
    { eapply Forall_impl; [exact Hall|]. intros e [? ?]. split; [lia|done]. }
    destruct (step_outcome_holds _ _ _ n st0 st Hst0 Hst)
      as [_ Hsame _|est lats lons Hg Hr Hm Hest Hne Hs Hl].
    + exists tr. split; [congruence|]. split; [done|].
      intros m s Hm Hem. destruct (decide (m = n)) as [->|]; [|apply Hin; [lia|done]].
      destruct Hem as (sa & sb & Ha & Hb & Hab).
      assert (sa = st0) as -> by congruence. assert (sb = st) as -> by congruence.
      rewrite Hsame in Hab. symmetry in Hab. by apply app_singleton_neq in Hab.
    + set (s0 := mkStop (np_median lats) (np_median lons) (t_0 st0) (other (row pts n))) in *.
      exists (tr ++ [(n, s0)]). split; [by rewrite Hs, Htr, fmap_app|]. split.
      * apply Forall_app. split; [done|]. constructor; [|constructor].
        split; [simpl; lia|]. by exists st0, st.
      * intros m s Hm' Hem. destruct (decide (m = n)) as [->|].
        -- destruct Hem as (sa & sb & Ha & Hb & Hab).
           assert (sa = st0) as -> by congruence. assert (sb = st) as -> by congruence.
           rewrite Hs in Hab. apply app_inj_tail in Hab as [_ <-].
           apply elem_of_app. right. by apply list_elem_of_singleton.
        -- apply elem_of_app. left. apply Hin; [lia|done].
Qed.

(** With [leaving_time] on, stops and leaving times are appended together. *)
Lemma leaving_trace (n : nat) (st : State) :
  leaving_time cfg = true →
  state_at measure_distance cfg pts n = Ok st →
  ∃ tr : list (nat * (Stop * Z)),
    stops_l st = (tr.*2).*1 ∧ leaving_times st = (tr.*2).*2 ∧
    Forall (λ e, e.1 < n ∧ emitted_with measure_distance cfg pts e.1 e.2.1 e.2.2) tr.
Proof.
  intros Hlv. revert st. induction n as [|n IH]; intros st Hst.
  - exists []. split; [|split; [|constructor]];
      unfold state_at in Hst; (destruct (pts !! 0); [|done]); by injection Hst as <-.
  - pose proof (state_at_Ok_lt _ _ _ _ _ Hst) as Hlt.
    destruct (state_at_inv measure_distance cfg pts n) as (st0 & Hst0 & _); [lia|].
    destruct (IH st0 Hst0) as (tr & Htr & Htl & Hall).
    assert (Hall' : Forall (λ e, e.1 < S n ∧
                       emitted_with measure_distance cfg pts e.1 e.2.1 e.2.2) tr).
    { eapply Forall_impl; [exact Hall|]. intros e [? ?]. split; [lia|done]. }
    destruct (step_outcome_holds _ _ _ n st0 st Hst0 Hst)
      as [_ Hsame Hsame'|est lats lons Hg Hr Hm Hest Hne Hs Hl].
    + exists tr. split; [congruence|]. split; [congruence|done].
    + rewrite Hlv in Hl.
      set (s0 := mkStop (np_median lats) (np_median lons) (t_0 st0) (other (row pts n))) in *.
      exists (tr ++ [(n, (s0, est))]).
      split; [by rewrite Hs, Htr, !fmap_app|]. split; [by rewrite Hl, Htl, !fmap_app|].
      apply Forall_app. split; [done|]. constructor; [|constructor].
      split; [simpl; lia|]. by exists st0, st.
Qed.

End Trace.

(** ** Anchors and runs *)

Section Anchors.

Variable measure_distance : Q * Q → Q * Q → Q.
Variable cfg : Config.
Variable pts : list Row.

(** The anchor in force after row [n] is the one anchor at or before [n]
    that no later row up to [n] has left. *)
Lemma anchor_at_spec (n a : nat) :
  anchor_at measure_distance cfg pts n = a ↔
  is_anchor measure_distance cfg pts a ∧ a ≤ n ∧
  ∀ k, a < k ≤ n → leaves measure_distance cfg pts a k = false.
Proof.
  revert a. induction n as [|n IH]; intros a.
  - cbn [anchor_at]. split.
    + intros <-. split; [by left|]. split; [done|]. intros k ?; lia.
    + intros (_ & Hle & _). lia.
  - cbn [anchor_at].
    destruct (leaves measure_distance cfg pts (anchor_at measure_distance cfg pts n) (S n))
      eqn:Hl.
    + split.
      * intros <-. split; [right; by exists n|]. split; [done|]. intros k ?; lia.
      * intros (Ha & Hle & Hk). destruct (decide (a = S n)) as [->|Hne]; [done|].
        assert (anchor_at measure_distance cfg pts n = a) as Heq.
        { apply IH. split; [done|]. split; [lia|]. intros k ?. apply Hk. lia. }
        rewrite Heq in Hl. rewrite Hk in Hl by lia. done.
    + split.
      * intros Heq. apply IH in Heq as (Ha & Hle & Hk). split; [done|]. split; [lia|].
        intros k ?. destruct (decide (k = S n)) as [->|].
        -- pose proof (proj2 (IH a) (conj Ha (conj Hle Hk))) as Heq. by rewrite <- Heq.
        -- apply Hk. lia.
      * intros (Ha & Hle & Hk). destruct (decide (a = S n)) as [->|Hne].
        -- destruct Ha as [?|(a' & [= <-] & Hl')]; [lia|]. congruence.
        -- apply IH. split; [done|]. split; [lia|]. intros k ?. apply Hk. lia.
Qed.

Lemma leaves_false (a k : nat) :
  leaves measure_distance cfg pts a k = false ↔
  gap_at cfg pts k = false ∧ (Dr_of measure_distance pts a k <= stop_radius cfg)%Q.
Proof.
  unfold leaves, exits_radius. rewrite orb_false_iff, Qltb_ge. done.
Qed.

(** A run of the specification ending at row [n+1], in the terms of the
    detector. *)
Lemma stop_run_anchor (a n : nat) :
  stop_run measure_distance cfg pts a (S n) ↔
  a = anchor_at measure_distance cfg pts n ∧ S n < length pts ∧
  gap_at cfg pts (S n) = false ∧
  exits_radius measure_distance cfg pts a (S n) = true ∧
  Qltb (minutes_for_a_stop cfg) (Dt_of pts a (S n)) = true.
Proof.
  unfold stop_run, exits_radius. rewrite !Qltb_lt. split.
  - intros (Ha & [Hlt Hlen] & Hrun & Hg & Hr & Hm).
    split; [|done]. symmetry. apply anchor_at_spec.
    split; [done|]. split; [lia|]. intros k Hk. apply leaves_false, Hrun. lia.
  - intros (Heq & Hlen & Hg & Hr & Hm). symmetry in Heq.
    apply anchor_at_spec in Heq as (Ha & Hle & Hk).
    split; [done|]. split; [lia|]. split; [|done].
    intros k Hk'. apply leaves_false, Hk. lia.
Qed.

(** For a distance that is zero from a point to itself and a radius that
    is not negative, the radius test of a row against itself never fires:
    an anchor set by a data gap keeps its speed sample. *)
Lemma gap_anchor_gap_at (a : nat) :
  (∀ p, measure_distance p p == 0)%Q → (0 <= stop_radius cfg)%Q →
  gap_anchor measure_distance cfg pts a = gap_at cfg pts a.
Proof.
  intros Hzero Hpos. unfold gap_anchor, exits_radius, Dr_of.
  assert (Qltb (stop_radius cfg)
            (measure_distance (lat (row pts a), lng (row pts a))
                              (lat (row pts a), lng (row pts a))) = false) as ->.
  { apply Qltb_ge. by rewrite Hzero. }
  apply andb_true_r.
Qed.

End Anchors.

(** ** What the estimate keeps *)

Section Estimate.

Variable measure_distance : Q * Q → Q * Q → Q.
Variable cfg : Config.

Lemma exit_estimate_None (st : State) (cur : Row) :
  min_speed_kmh cfg = None →
  exit_estimate measure_distance cfg st cur = Ok (dtime cur, sum_lat st, sum_lon st).
Proof.
  intros Hms. unfold exit_estimate.
  destruct (speed_sample_total
              (measure_distance (lat_0 st, lon_0 st) (lat cur, lng cur))
              (diff_minutes (t_0 st) (dtime cur))) as [v ->].
  cbn [mbind result_bind]. unfold estimate_leaving. by rewrite Hms.
Qed.

(** The estimate trims [j] trailing rows, none ([j = 0], the leaving time is
    the exit row's) or at least two (the leaving time is then the timestamp
    [j] positions from the end). *)
Lemma exit_estimate_kept (st : State) (cur : Row) (est : Z) (lats lons : list Q) :
  exit_estimate measure_distance cfg st cur = Ok (est, lats, lons) →
  ∃ j, lats = take (length (sum_lat st) - j) (sum_lat st) ∧
       lons = take (length (sum_lon st) - j) (sum_lon st) ∧
       ((j = 0 ∧ est = dtime cur) ∨
        (2 ≤ j ≤ length (sum_t st) ∧ sum_t st !! (length (sum_t st) - j) = Some est)).
Proof.
  unfold exit_estimate.
  destruct (speed_sample_total
              (measure_distance (lat_0 st, lon_0 st) (lat cur, lng cur))
              (diff_minutes (t_0 st) (dtime cur))) as [v ->].
  cbn [mbind result_bind]. unfold estimate_leaving.
  assert (Hall : ∀ l : list Q, l = take (length l - 0) l).
  { intros l. by rewrite Nat.sub_0_r, firstn_all. }
  destruct (min_speed_kmh cfg) as [ms|].
  2:{ intros [= <- <- <-]. exists 0. cbn [sum_lat sum_lon with_speed].
      split; [apply Hall|]. split; [apply Hall|]. by left. }
  destruct (backward_scan_spec (speeds_kmh (with_speed st v)) ms) as (j & -> & H1 & _).
  cbn [mbind result_bind]. destruct (Nat.eqb_spec j 1) as [->|Hne].
  { intros [= <- <- <-]. exists 0. cbn [sum_lat sum_lon with_speed].
    split; [apply Hall|]. split; [apply Hall|]. by left. }
  destruct (py_neg_index (sum_t (with_speed st v)) j) as [tj|e] eqn:Htj; [|done].
  cbn [mbind result_bind]. intros [= <- <- <-].
  apply py_neg_index_inv in Htj as [Hle Hlk]; [|lia].
  cbn [sum_t with_speed] in Hle, Hlk. exists j. cbn [sum_lat sum_lon with_speed].
  unfold py_drop_last. destruct j as [|j]; [lia|].
  split; [done|]. split; [done|]. right. split; [lia|done].
Qed.

End Estimate.

(** * The claims *)

(** ** C1: the leaving time when [min_speed_kmh] is set *)

(** C1, as the code has it.  When [min_speed_kmh] is set and an exit row P
    confirms a stop, the backward scan looks at the offsets
    [1 .. len(speeds_kmh) - 1] only and stops at the first sample strictly
    below the threshold, or at the last offset it looked at when there is
    none.  Stopped at offset 1 (or with fewer than two samples), the leaving
    time is P's timestamp and nothing is trimmed; stopped at an offset
    [j >= 2], the leaving time is the timestamp [j] positions from the end of
    the time sequence and the last [j] latitudes and longitudes are trimmed. *)
Theorem C1_departure_rule (st : State) (ms : Q) (t : Z) :
  length (speeds_kmh st) ≤ S (length (sum_t st)) →
  ∃ j, backward_scan (speeds_kmh st) ms = Ok j ∧
       scan_stops_at (speeds_kmh st) ms j ∧
       (j = 1 → estimate_leaving st (Some ms) t = Ok (t, sum_lat st, sum_lon st)) ∧
       (j ≠ 1 →
        ∃ tj, sum_t st !! (length (sum_t st) - j) = Some tj ∧
              estimate_leaving st (Some ms) t =
                Ok (tj, take (length (sum_lat st) - j) (sum_lat st),
                        take (length (sum_lon st) - j) (sum_lon st))).
Proof.
  intros Hlen.
  destruct (backward_scan_spec (speeds_kmh st) ms) as (j & Hj & Hstop).
  exists j. split; [done|]. split; [done|].
  unfold estimate_leaving. rewrite Hj. cbn [mbind result_bind]. split.
  - by intros ->.
  - intros Hne. destruct Hstop as (H1 & Hr & _).
    destruct (py_neg_index_Ok (sum_t st) j) as (tj & Htj & Hlk); [lia|].
    exists tj. split; [done|].
    destruct (Nat.eqb_spec j 1) as [?|_]; [done|].
    rewrite Htj. cbn [mbind result_bind].
    unfold py_drop_last. destruct j; [lia|done].
Qed.

(** C1, witness: the accumulator of [walk_drift] with the threshold
    0.1 km/h; the scan ends at offset 2 with no sample below. *)
Lemma C1_departure_rule_witness :
  length (speeds_kmh drift_acc) ≤ S (length (sum_t drift_acc)) ∧
  ∃ j, backward_scan (speeds_kmh drift_acc) (1 # 10) = Ok j ∧
       scan_stops_at (speeds_kmh drift_acc) (1 # 10) j ∧
       (j = 1 →
        estimate_leaving drift_acc (Some (1 # 10)%Q) (minute 30) =
          Ok (minute 30, sum_lat drift_acc, sum_lon drift_acc)) ∧
       (j ≠ 1 →
        ∃ tj, sum_t drift_acc !! (length (sum_t drift_acc) - j) = Some tj ∧
              estimate_leaving drift_acc (Some (1 # 10)%Q) (minute 30) =
                Ok (tj, take (length (sum_lat drift_acc) - j) (sum_lat drift_acc),
                        take (length (sum_lon drift_acc) - j) (sum_lon drift_acc))).
Proof.
  split; [simpl; lia|].
  apply (C1_departure_rule drift_acc (1 # 10) (minute 30)). simpl; lia.
Defined.

(** C1, counterexample.  On [walk_drift] the speed samples at the exit are
    all at or above 0.1 km/h, so the claim gives the exit row's timestamp
    (minute 30) and no trimming; the code leaves [j = 2], answers minute 10
    and keeps one latitude.  With the threshold 500 km/h the most recent
    sample is below it, at offset 1: the claim gives the timestamp one
    position from the end (minute 20) and trims one row; the code answers
    minute 30 and trims nothing. *)
Lemma C1_departure_rule_counterexample :
  ∃ st v,
    state_at meridian_distance cfg_slow walk_drift 2 = Ok st ∧
    speed_sample (meridian_distance (lat_0 st, lon_0 st) (1, 0)%Q)
                 (diff_minutes (t_0 st) (minute 30)) = Ok v ∧
    Forall (λ s, Qltb s (1 # 10) = false) (speeds_kmh (with_speed st v)) ∧
    spec_leaving (with_speed st v) (1 # 10) (minute 30) =
      Ok (minute 30, sum_lat st, sum_lon st) ∧
    estimate_leaving (with_speed st v) (Some (1 # 10)%Q) (minute 30) =
      Ok (minute 10, [0%Q], [0%Q]) ∧
    stops_array meridian_distance cfg_slow walk_drift =
      Ok ([mkStop (Some 0%Q) (Some 0%Q) (minute 0) [VStr "c"]], [minute 10]) ∧
    spec_leaving (with_speed st v) 500 (minute 30) =
      Ok (minute 20, [0; 1 # 1000]%Q, [0; 0]%Q) ∧
    estimate_leaving (with_speed st v) (Some 500%Q) (minute 30) =
      Ok (minute 30, sum_lat st, sum_lon st) ∧
    stops_array meridian_distance cfg_fast walk_drift =
      Ok ([mkStop (Some (1 # 1000)%Q) (Some 0%Q) (minute 0) [VStr "c"]], [minute 30]).
Proof.
  eexists _, _. split; [vm_compute; reflexivity|].
  split; [vm_compute; reflexivity|].
  split; [repeat constructor|].
  repeat split; vm_compute; reflexivity.
Qed.

(** ** C2: a data gap *)

(** C2, as the code has it.  When the row P comes more than
    [no_data_for_minutes] after the row before it, the accumulator is
    dropped, nothing is emitted and a new accumulator is anchored at P; the
    rest of the body still runs on P, measured against itself: the elapsed
    time is zero, so the speed sample 0 is appended for P, and the radius
    test is made on the distance from P to P.  P stays the anchor either
    way; the sample is kept unless that test finds P out of the radius. *)
Theorem C2_gap_reanchors (measure_distance : Q * Q → Q * Q → Q) (cfg : Config)
    (pts : list Row) (n : nat) (st st' : State) :
  state_at measure_distance cfg pts n = Ok st →
  state_at measure_distance cfg pts (S n) = Ok st' →
  gap_at cfg pts (S n) = true →
  stops_l st' = stops_l st ∧ leaving_times st' = leaving_times st ∧
  lat_0 st' = lat (row pts (S n)) ∧ lon_0 st' = lng (row pts (S n)) ∧
  t_0 st' = dtime (row pts (S n)) ∧
  sum_lat st' = [lat (row pts (S n))] ∧ sum_lon st' = [lng (row pts (S n))] ∧
  sum_t st' = [dtime (row pts (S n))] ∧
  speed_sample (Dr_of measure_distance pts (S n) (S n)) (Dt_of pts (S n) (S n)) = Ok 0%Q ∧
  speeds_kmh st' = if exits_radius measure_distance cfg pts (S n) (S n) then [] else [0%Q].
Proof.
  intros Hst Hst' Hgap. pose proof (state_at_step _ _ _ n st st' Hst Hst') as Hbody.
  cbn [gap_at] in Hgap. rewrite loop_body_gap in Hbody by done.
  injection Hbody as <-.
  assert (Hzero : speed_sample (Dr_of measure_distance pts (S n) (S n))
                    (Dt_of pts (S n) (S n)) = Ok 0%Q).
  { apply speed_sample_zero, diff_minutes_same. }
  unfold exits_radius, Dr_of.
  destruct (Qltb (stop_radius cfg) _); cbn; repeat split; done.
Qed.

(** C2, witness: row 1 of [walk_gap] comes 100 minutes after row 0. *)
Lemma C2_gap_reanchors_witness :
  gap_at cfg_slow walk_gap 1 = true ∧
  ∃ st', state_at meridian_distance cfg_slow walk_gap 1 = Ok st' ∧
         stops_l st' = [] ∧ sum_t st' = [minute 100] ∧ speeds_kmh st' = [0%Q].
Proof.
  split; [reflexivity|].
  assert (H0 : state_at meridian_distance cfg_slow walk_gap 0
               = Ok (init_state (at_lat 0 0 "a"))) by reflexivity.
  destruct (state_at meridian_distance cfg_slow walk_gap 1) as [st'|e] eqn:H1;
    [|vm_compute in H1; discriminate].
  exists st'. split; [reflexivity|].
  destruct (C2_gap_reanchors meridian_distance cfg_slow walk_gap 0 _ st' H0 H1 eq_refl)
    as (Hs & _ & _ & _ & _ & _ & _ & Ht & _ & Hv).
  split; [exact Hs|]. split; [exact Ht|exact Hv].
Defined.

(** C2, counterexample: after the gap of [walk_gap] the speed sequence of
    the new accumulator holds a sample for the row it is anchored at, where
    the claim has none computed or appended. *)
Lemma C2_gap_reanchors_counterexample :
  gap_at cfg_slow walk_gap 1 = true ∧
  ∃ st', state_at meridian_distance cfg_slow walk_gap 1 = Ok st' ∧
         speeds_kmh st' = [0%Q] ∧ speeds_kmh st' ≠ [].
Proof.
  split; [reflexivity|]. eexists. split; [vm_compute; reflexivity|].
  split; [reflexivity|discriminate].
Qed.

(** ** C3: when a stop is emitted *)

Section EmissionFacts.

Variable measure_distance : Q * Q → Q * Q → Q.
Variable cfg : Config.
Variable pts : list Row.

Lemma emitted_iff (n : nat) :
  (∃ s, emitted_at measure_distance cfg pts n s) ↔
  (∃ a, stop_run measure_distance cfg pts a (S n)) ∧
  keeps_some measure_distance cfg pts n.
Proof.
  split.
  - intros [s Hem]. pose proof (emitted_at_lt _ _ _ _ _ Hem) as Hlt.
    apply emitted_at_inv in Hem as (st & est & lats & lons & Hst & Hg & Hr & Hm & Hest & Hne & _).
    split.
    + exists (anchor_at measure_distance cfg pts n). by apply stop_run_anchor.
    + by exists st, est, lats, lons.
  - intros [[a Hrun] (st & est & lats & lons & Hst & Hest & Hne)].
    apply stop_run_anchor in Hrun as (-> & Hlt & Hg & Hr & Hm).
    destruct (state_at_inv measure_distance cfg pts (S n) Hlt) as (st' & Hst' & _).
    destruct (step_outcome_holds _ _ _ n st st' Hst Hst')
      as [Hcase _ _|est' lats' lons' _ _ _ _ _ Hs _].
    + destruct Hcase as [?|[?|[?|(est' & lons' & Hest')]]]; congruence.
    + eexists. by exists st, st'.
Qed.

Lemma keeps_some_None (n : nat) :
  min_speed_kmh cfg = None → S n < length pts → keeps_some measure_distance cfg pts n.
Proof.
  intros Hms Hlt.
  destruct (state_at_inv measure_distance cfg pts n) as (st & Hst & Hinv); [lia|].
  exists st, (dtime (row pts (S n))), (sum_lat st), (sum_lon st).
  split; [done|]. split; [by apply exit_estimate_None|].
  destruct Hinv as (_ & _ & _ & Hlat & _). intros Hnil.
  apply (f_equal length) in Hlat. rewrite Hnil, length_fmap in Hlat.
  pose proof (anchor_at_le measure_distance cfg pts n).
  rewrite rows_from_to_length in Hlat by lia. simpl in Hlat. lia.
Qed.

Lemma output_emitted (ss : list Stop) (ls : list Z) (s : Stop) :
  stops_array measure_distance cfg pts = Ok (ss, ls) →
  s ∈ ss ↔ ∃ n, S n < length pts ∧ emitted_at measure_distance cfg pts n s.
Proof.
  unfold stops_array.
  destruct (state_at measure_distance cfg pts (length pts - 1)) as [st|e] eqn:Hst; [|done].
  cbn [mbind result_bind]. intros [= <- <-].
  destruct (stops_trace _ _ _ _ _ Hst) as (tr & Htr & Hall & Hin).
  rewrite Htr. split.
  - intros Hs. apply list_elem_of_fmap in Hs as ([m s'] & -> & Hms).
    rewrite Forall_forall in Hall. destruct (Hall _ Hms) as [Hlt Hem].
    exists m. split; [simpl in Hlt; lia|done].
  - intros (n & Hlt & Hem). apply list_elem_of_fmap. exists (n, s). split; [done|].
    apply Hin; [lia|done].
Qed.

End EmissionFacts.

(** C3, as the code has it.  Iteration [n] emits a stop if and only if row
    [n+1] closes a run of the specification (the rows since an anchor stay
    within [stop_radius] of it with no data gap, the row is not after a gap,
    it is out of the radius, and more than [minutes_for_a_stop] have elapsed
    from the anchor to it) and the estimate of the leaving time keeps at
    least one visited latitude.  With [min_speed_kmh] unset one always is
    kept, and the claim's equivalence holds.  The stops returned are the stops
    emitted by the iterations: an accumulator open at the end emits none. *)
Theorem C3_emission_iff (measure_distance : Q * Q → Q * Q → Q) (cfg : Config)
    (pts : list Row) :
  (∀ n, (∃ s, emitted_at measure_distance cfg pts n s) ↔
        (∃ a, stop_run measure_distance cfg pts a (S n)) ∧
        keeps_some measure_distance cfg pts n) ∧
  (min_speed_kmh cfg = None →
   ∀ n, (∃ s, emitted_at measure_distance cfg pts n s) ↔
        (∃ a, stop_run measure_distance cfg pts a (S n))) ∧
  (∀ ss ls, stops_array measure_distance cfg pts = Ok (ss, ls) →
            ∀ s, s ∈ ss ↔ ∃ n, S n < length pts ∧ emitted_at measure_distance cfg pts n s).
Proof.
  split; [apply emitted_iff|]. split.
  - intros Hms n. rewrite emitted_iff. split; [by intros [? _]|].
    intros [a Hrun]. split; [by exists a|].
    apply keeps_some_None; [done|]. by destruct Hrun as (_ & [_ ?] & _).
  - intros ss ls Hout s. by eapply output_emitted.
Qed.

(** C3, counterexample.  In [walk_gap] rows 1 and 2 are a run anchored at
    row 1, 30 minutes long, closed 60 minutes after the anchor by row 3,
    which is 111 km away and not after a gap; with the threshold 0.1 km/h no
    stop is emitted: the scan ends at offset 2 and both visited rows are
    trimmed. *)
Lemma C3_emission_iff_counterexample :
  stop_run meridian_distance cfg_slow walk_gap 1 3 ∧
  (Dr_of meridian_distance walk_gap 1 2 <= stop_radius cfg_slow)%Q ∧
  (minutes_for_a_stop cfg_slow < Dt_of walk_gap 1 2)%Q ∧
  stops_array meridian_distance cfg_slow walk_gap = Ok ([], []) ∧
  ¬ ∃ s, emitted_at meridian_distance cfg_slow walk_gap 2 s.
Proof.
  split.
  { split; [right; by exists 0|]. split; [simpl; lia|]. split.
    - intros k Hk. assert (k = 2) as -> by lia. by split.
    - by repeat split. }
  split; [done|]. split; [done|]. split; [vm_compute; reflexivity|].
  intros (s & st & st' & H2 & H3 & Happ).
  vm_compute in H3. injection H3 as <-. simpl in Happ.
  by destruct (stops_l st).
Qed.

(** ** C4: the fields of a stop *)

(** C4.  A stop emitted by iteration [n], whose exit row is row [n+1], has
    the medians of the visited latitudes and longitudes, the accumulator
    holding rows [a .. n] for the anchor [a] and the estimate of the leaving
    time trimming the last [j] of them ([j = 0]: none); its time is the
    anchor's timestamp; its other columns are those of row [n], the last row
    of the accumulator and the row before the exit row.  The medians are
    numbers. *)
Theorem C4_stop_record (measure_distance : Q * Q → Q * Q → Q) (cfg : Config)
    (pts : list Row) (n : nat) (s : Stop) :
  emitted_at measure_distance cfg pts n s →
  ∃ st j,
    state_at measure_distance cfg pts n = Ok st ∧
    sum_lat st = lat <$> rows_from_to pts (anchor_at measure_distance cfg pts n) n ∧
    sum_lon st = lng <$> rows_from_to pts (anchor_at measure_distance cfg pts n) n ∧
    t_0 st = dtime (row pts (anchor_at measure_distance cfg pts n)) ∧
    last (rows_from_to pts (anchor_at measure_distance cfg pts n) n) = Some (row pts n) ∧
    j < length (sum_lat st) ∧
    s_lat s = np_median (take (length (sum_lat st) - j) (sum_lat st)) ∧
    s_lng s = np_median (take (length (sum_lon st) - j) (sum_lon st)) ∧
    is_Some (s_lat s) ∧ is_Some (s_lng s) ∧
    s_t s = t_0 st ∧
    s_extra s = other (row pts n).
Proof.
  intros Hem. pose proof (emitted_at_lt _ _ _ _ _ Hem) as Hlt.
  apply emitted_at_inv in Hem
    as (st & est & lats & lons & Hst & _ & _ & _ & Hest & Hne & -> & _).
  destruct (state_at_acc_inv _ _ _ n st Hst) as (_ & _ & Ht & Hlat & Hlon & _ & _).
  pose proof (anchor_at_le measure_distance cfg pts n) as Hle.
  set (a := anchor_at measure_distance cfg pts n) in *.
  assert (Hlen : length (rows_from_to pts a n) = S n - a)
    by (apply rows_from_to_length; lia).
  apply exit_estimate_kept in Hest as (j & Hlats & Hlons & _).
  assert (Hll : length (sum_lat st) = length (sum_lon st)).
  { by rewrite Hlat, Hlon, !length_fmap. }
  assert (Hj : j < length (sum_lat st)).
  { destruct (decide (j < length (sum_lat st))) as [?|Hge]; [done|].
    exfalso. apply Hne. rewrite Hlats.
    replace (length (sum_lat st) - j) with 0 by lia. done. }
  exists st, j. cbn [s_lat s_lng s_t s_extra]. rewrite <- Hlats, <- Hlons.
  split; [done|]. split; [done|]. split; [done|]. split; [done|]. split.
  { rewrite last_lookup, Hlen. replace (Init.Nat.pred (S n - a)) with (n - a) by lia.
    rewrite rows_from_to_lookup by lia. f_equal. f_equal. lia. }
  split; [done|]. split; [done|]. split; [done|].
  split; [by apply np_median_is_Some|]. split; [|done].
  apply np_median_is_Some. intros Hnil. rewrite Hnil in Hlons.
  apply (f_equal length) in Hlons. rewrite length_take in Hlons. simpl in Hlons. lia.
Qed.

(** C4, witness: [walk_stay], whose row 4 closes the stop of rows 0 to 3. *)
Lemma C4_stop_record_witness :
  ∃ s, emitted_at meridian_distance cfg_plain walk_stay 3 s ∧
       s_t s = minute 0 ∧ s_extra s = [VStr "d"].
Proof.
  destruct (state_at meridian_distance cfg_plain walk_stay 3) as [st|e] eqn:H3;
    [|vm_compute in H3; discriminate].
  destruct (state_at meridian_distance cfg_plain walk_stay 4) as [st'|e] eqn:H4;
    [|vm_compute in H4; discriminate].
  assert (Hs : ∃ s, stops_l st' = stops_l st ++ [s]).
  { vm_compute in H3, H4. injection H3 as <-. injection H4 as <-. by eexists. }
  destruct Hs as [s Hs]. exists s.
  assert (Hem : emitted_at meridian_distance cfg_plain walk_stay 3 s) by (by exists st, st').
  split; [exact Hem|].
  destruct (C4_stop_record meridian_distance cfg_plain walk_stay 3 s Hem)
    as (st0 & j & _ & _ & _ & Ht & _ & _ & _ & _ & _ & _ & Hst & Hextra).
  rewrite Hst, Ht, Hextra. split; reflexivity.
Defined.

(** ** C5: the lengths of the accumulator's sequences *)

(** C5, as the code has it.  At the head of every iteration the visited
    latitudes, longitudes and timestamps have the same length, one entry for
    each row from the anchor on.  The speed sequence is one shorter while the
    anchor is the first row or a row that left the radius, and as long as
    the timestamps while the anchor was set by a data gap: that row has a
    speed sample of its own (C2). *)
Theorem C5_sequence_lengths (measure_distance : Q * Q → Q * Q → Q) (cfg : Config)
    (pts : list Row) (n : nat) (st : State) :
  state_at measure_distance cfg pts n = Ok st →
  length (sum_lat st) = length (sum_t st) ∧
  length (sum_lon st) = length (sum_t st) ∧
  length (sum_t st) = S n - anchor_at measure_distance cfg pts n ∧
  1 ≤ length (sum_t st) ∧
  length (speeds_kmh st) =
    if gap_anchor measure_distance cfg pts (anchor_at measure_distance cfg pts n)
    then length (sum_t st)
    else length (sum_t st) - 1.
Proof.
  intros Hst. pose proof (state_at_Ok_lt _ _ _ _ _ Hst) as Hlt.
  destruct (state_at_acc_inv _ _ _ n st Hst) as (_ & _ & _ & Hlat & Hlon & Ht & Hsp).
  pose proof (anchor_at_le measure_distance cfg pts n) as Hle.
  rewrite Hlat, Hlon, Ht, Hsp, !length_fmap, rows_from_to_length by lia.
  repeat split; try lia. destruct (gap_anchor _ _ _ _); lia.
Qed.

(** C5, witness: [walk_stay] at the head of iteration 3. *)
Lemma C5_sequence_lengths_witness :
  ∃ st, state_at meridian_distance cfg_plain walk_stay 3 = Ok st ∧
        length (sum_lat st) = 4 ∧ length (sum_t st) = 4 ∧ length (speeds_kmh st) = 3.
Proof.
  destruct (state_at meridian_distance cfg_plain walk_stay 3) as [st|e] eqn:H3;
    [|vm_compute in H3; discriminate].
  exists st. split; [reflexivity|].
  destruct (C5_sequence_lengths meridian_distance cfg_plain walk_stay 3 st H3)
    as (Hlat & _ & Ht & _ & Hsp).
  rewrite Hlat, Hsp, Ht. repeat split.
Defined.

(** C5, counterexample.  In [walk_gap] row 1 follows a gap and becomes the
    anchor; once row 2 has been examined the timestamps and the speed samples
    are two each. *)
Lemma C5_sequence_lengths_counterexample :
  ∃ st, state_at meridian_distance cfg_slow walk_gap 2 = Ok st ∧
        anchor_at meridian_distance cfg_slow walk_gap 2 = 1 ∧
        length (sum_t st) = 2 ∧ length (speeds_kmh st) = 2 ∧
        length (speeds_kmh st) ≠ length (sum_t st) - 1.
Proof.
  eexists. split; [vm_compute; reflexivity|]. repeat split. simpl. lia.
Qed.

(** ** C6: exceptions *)

(** C6, as the code has it.  On a non-empty sequence the detector raises
    nothing: every iteration is reached and the result is returned; and when
    no time has elapsed between the anchor and the row, the speed sample is
    0 where the division would raise. *)
Theorem C6_no_exception (measure_distance : Q * Q → Q * Q → Q) (cfg : Config)
    (pts : list Row) :
  pts ≠ [] →
  (∀ n, n < length pts → ∃ st, state_at measure_distance cfg pts n = Ok st) ∧
  (∃ out, stops_array measure_distance cfg pts = Ok out) ∧
  (∀ Dr Dt, (Dt == 0)%Q →
     py_div Dr Dt = Raise ZeroDivisionError ∧ speed_sample Dr Dt = Ok 0%Q).
Proof.
  intros Hne. assert (0 < length pts) as Hlen by (destruct pts; [done|simpl; lia]).
  split; [|split].
  - intros n Hn. destruct (state_at_inv measure_distance cfg pts n Hn) as (st & Hst & _).
    by exists st.
  - unfold stops_array.
    destruct (state_at_inv measure_distance cfg pts (length pts - 1)) as (st & -> & _); [lia|].
    by eexists.
  - intros Dr Dt Hz. apply Qeq_bool_iff in Hz.
    split; [by apply py_div_zero|by apply speed_sample_zero].
Qed.

(** C6, witness: a single row, and two rows at the same instant. *)
Lemma C6_no_exception_witness :
  [at_lat 0 0 "a"] ≠ [] ∧
  stops_array meridian_distance cfg_plain [at_lat 0 0 "a"] = Ok ([], []) ∧
  speed_sample (111 # 1) (diff_minutes (minute 3) (minute 3)) = Ok 0%Q.
Proof.
  assert (Hne : [at_lat 0 0 "a"] ≠ []) by discriminate.
  destruct (C6_no_exception meridian_distance cfg_plain [at_lat 0 0 "a"] Hne)
    as (_ & [out Hout] & Hzero).
  split; [exact Hne|]. split.
  - rewrite Hout. vm_compute in Hout. by injection Hout as <-.
  - apply Hzero. reflexivity.
Defined.

(** C6, counterexample: the empty sequence; line 117 reads its first row. *)
Lemma C6_no_exception_counterexample :
  stops_array meridian_distance cfg_plain [] = Raise IndexError.
Proof. reflexivity. Qed.

(** ** C7 and C8: the leaving times *)

Section LeavingFacts.

Variable measure_distance : Q * Q → Q * Q → Q.
Variable cfg : Config.
Variable pts : list Row.

(** With [leaving_time] on, the [k]-th leaving time returned was appended
    by the iteration that appended the [k]-th stop. *)
Lemma output_pairs (ss : list Stop) (ls : list Z) :
  leaving_time cfg = true →
  stops_array measure_distance cfg pts = Ok (ss, ls) →
  length ls = length ss ∧
  ∀ k s d, ss !! k = Some s → ls !! k = Some d →
    ∃ n, S n < length pts ∧ emitted_with measure_distance cfg pts n s d.
Proof.
  intros Hlv. unfold stops_array.
  destruct (state_at measure_distance cfg pts (length pts - 1)) as [st|e] eqn:Hst; [|done].
  cbn [mbind result_bind]. intros [= <- <-].
  destruct (leaving_trace _ _ _ _ _ Hlv Hst) as (tr & -> & -> & Hall).
  split; [by rewrite !length_fmap|].
  intros k s d Hs Hd. rewrite !list_lookup_fmap in Hs. rewrite !list_lookup_fmap in Hd.
  destruct (tr !! k) as [[m [s' d']]|] eqn:Hk; [|done].
  simpl in Hs, Hd. injection Hs as <-. injection Hd as <-.
  rewrite Forall_lookup in Hall. destruct (Hall _ _ Hk) as [Hm Hem]. simpl in Hm, Hem.
  exists m. split; [|done]. apply emitted_with_at, emitted_at_lt in Hem. done.
Qed.

End LeavingFacts.

(** C7.  With [min_speed_kmh] unset and leaving times requested, there are
    as many leaving times as stops, and the [k]-th leaving time is the
    timestamp of the exit row whose iteration appended the [k]-th stop. *)
Theorem C7_leaving_time_unset (measure_distance : Q * Q → Q * Q → Q) (cfg : Config)
    (pts : list Row) (ss : list Stop) (ls : list Z) :
  min_speed_kmh cfg = None →
  leaving_time cfg = true →
  stops_array measure_distance cfg pts = Ok (ss, ls) →
  length ls = length ss ∧
  ∀ k s d, ss !! k = Some s → ls !! k = Some d →
    ∃ n, S n < length pts ∧ emitted_with measure_distance cfg pts n s d ∧
         d = dtime (row pts (S n)).
Proof.
  intros Hms Hlv Hout.
  destruct (output_pairs _ _ _ _ _ Hlv Hout) as [Hlen Hpairs].
  split; [done|]. intros k s d Hs Hd.
  destruct (Hpairs k s d Hs Hd) as (n & Hn & Hem).
  exists n. split; [done|]. split; [done|].
  apply emitted_with_inv in Hem as (st & lats & lons & _ & _ & _ & Hest & _).
  rewrite exit_estimate_None in Hest by done. by injection Hest as <-.
Qed.

(** C7, witness: [walk_stay]; the stop leaves at minute 35, the time of
    the exit row. *)
Lemma C7_leaving_time_unset_witness :
  ∃ s, stops_array meridian_distance cfg_plain walk_stay = Ok ([s], [minute 35]) ∧
       ∃ n, S n < length walk_stay ∧
            emitted_with meridian_distance cfg_plain walk_stay n s (minute 35) ∧
            minute 35 = dtime (row walk_stay (S n)).
Proof.
  destruct (stops_array meridian_distance cfg_plain walk_stay) as [[ss ls]|e] eqn:Hout;
    [|vm_compute in Hout; discriminate].
  pose proof (C7_leaving_time_unset meridian_distance cfg_plain walk_stay ss ls
                eq_refl eq_refl Hout) as [_ Hpairs].
  vm_compute in Hout. injection Hout as <- <-.
  eexists. split; [reflexivity|]. by apply (Hpairs 0).
Defined.

(** C8.  With [min_speed_kmh] set, leaving times requested and timestamps
    that never decrease, the [k]-th leaving time lies between the time of
    the [k]-th stop (its anchor's timestamp) and the timestamp of the exit
    row whose iteration appended that stop. *)
Theorem C8_leaving_time_bounds (measure_distance : Q * Q → Q * Q → Q) (cfg : Config)
    (pts : list Row) (ms : Q) (ss : list Stop) (ls : list Z) :
  min_speed_kmh cfg = Some ms →
  leaving_time cfg = true →
  time_ordered pts →
  stops_array measure_distance cfg pts = Ok (ss, ls) →
  length ls = length ss ∧
  ∀ k s d, ss !! k = Some s → ls !! k = Some d →
    ∃ n, S n < length pts ∧ emitted_with measure_distance cfg pts n s d ∧
         (s_t s ≤ d ≤ dtime (row pts (S n)))%Z.
Proof.
  intros _ Hlv Hord Hout.
  destruct (output_pairs _ _ _ _ _ Hlv Hout) as [Hlen Hpairs].
  split; [done|]. intros k s d Hs Hd.
  destruct (Hpairs k s d Hs Hd) as (n & Hn & Hem).
  exists n. split; [done|]. split; [done|].
  apply emitted_with_inv in Hem as (st & lats & lons & _ & Hinv & _ & Hest & _ & ->).
  destruct Hinv as (_ & _ & Ht & _ & _ & Hsumt & _).
  pose proof (anchor_at_le measure_distance cfg pts n) as Hle.
  set (a := anchor_at measure_distance cfg pts n) in *.
  assert (Hlen' : length (sum_t st) = S n - a).
  { rewrite Hsumt, length_fmap. apply rows_from_to_length; lia. }
  cbn [s_t]. rewrite Ht.
  apply exit_estimate_kept in Hest as (j & _ & _ & [[_ ->]|[Hj Hlk]]).
  - split; [apply Hord; lia|lia].
  - rewrite Hsumt, list_lookup_fmap, length_fmap in Hlk.
    rewrite rows_from_to_length in Hlk by lia.
    rewrite rows_from_to_lookup in Hlk by lia.
    simpl in Hlk. injection Hlk as <-. split; apply Hord; lia.
Qed.

(** C8, witness: [walk_drift] with the threshold 0.1 km/h; the stop of
    minute 0 leaves at minute 10, before the exit row of minute 30. *)
Lemma C8_leaving_time_bounds_witness :
  time_ordered walk_drift ∧
  ∃ s, stops_array meridian_distance cfg_slow walk_drift = Ok ([s], [minute 10]) ∧
       ∃ n, S n < length walk_drift ∧
            emitted_with meridian_distance cfg_slow walk_drift n s (minute 10) ∧
            (s_t s ≤ minute 10 ≤ dtime (row walk_drift (S n)))%Z.
Proof.
  assert (Hord : time_ordered walk_drift).
  { intros i j Hij Hj. simpl in Hj.
    do 4 (destruct j as [|j];
          [do 4 (destruct i as [|i]; [first [lia | by vm_compute]|]); lia|]).
    lia. }
  split; [exact Hord|].
  destruct (stops_array meridian_distance cfg_slow walk_drift) as [[ss ls]|e] eqn:Hout;
    [|vm_compute in Hout; discriminate].
  pose proof (C8_leaving_time_bounds meridian_distance cfg_slow walk_drift (1 # 10) ss ls
                eq_refl eq_refl Hord Hout) as [_ Hpairs].
  vm_compute in Hout. injection Hout as <- <-.
  eexists. split; [reflexivity|]. by apply (Hpairs 0).
Defined.

(** ** Setting a column *)

Lemma put_cell_length (cols : list string) (name : string) (v : PyVal) (cells : list PyVal) :
  length (put_cell cols name v cells) = length cells.
Proof. apply length_imap. Qed.

Lemma put_cell_other (cols : list string) (name : string) (v : PyVal) (cells : list PyVal)
    (i : nat) :
  cols !! i ≠ Some name → put_cell cols name v cells !! i = cells !! i.
Proof.
  intros Hne. unfold put_cell. rewrite list_lookup_imap.
  destruct (cells !! i) as [x|]; [|done]. simpl. by destruct (decide _).
Qed.

(** Setting a column changes nothing but the cells of that column: the
    other cells, the coordinates and the time of each row, the number of
    rows and the parameters stay. *)
Lemma with_column_frame (f : Frame Stop) (name : string) (vs : list PyVal) :
  length vs = length (rows f) →
  columns (with_column name vs f) =
    (if decide (name ∈ columns f) then columns f else columns f ++ [name]) ∧
  parameters (with_column name vs f) = parameters f ∧
  length (rows (with_column name vs f)) = length (rows f) ∧
  ∀ k s, rows f !! k = Some s →
    ∃ s' v, rows (with_column name vs f) !! k = Some s' ∧ vs !! k = Some v ∧
            s_lat s' = s_lat s ∧ s_lng s' = s_lng s ∧ s_t s' = s_t s ∧
            (∀ i, columns f !! i ≠ Some name → i < length (s_extra s) →
                  s_extra s' !! i = s_extra s !! i) ∧
            (name ∉ columns f → s_extra s' = s_extra s ++ [v]).
Proof.
  intros Hlen. split; [done|]. split; [done|]. split.
  { cbn [rows with_column]. rewrite length_zip_with. lia. }
  intros k s Hs.
  destruct (lookup_lt_is_Some_2 vs k) as [v Hv].
  { rewrite Hlen. by eapply lookup_lt_Some. }
  exists (with_cell (columns f) name v s), v. split.
  { cbn [rows with_column]. rewrite lookup_zip_with, Hv. simpl. by rewrite Hs. }
  split; [done|]. split; [done|]. split; [done|]. split; [done|].
  unfold with_cell. cbn [s_extra]. split.
  - intros i Hi Hlt. destruct (decide (name ∈ columns f)).
    + by apply put_cell_other.
    + by rewrite lookup_app_l.
  - intros Hnot. by destruct (decide (name ∈ columns f)).
Qed.

Section FrameFacts.

Variable measure_distance : Q * Q → Q * Q → Q.

(** [_stops_trajectory] with the flag off: the stops, in a frame with the
    columns of the input. *)
Lemma stops_trajectory_off (cfg : Config) (tdf : Frame Row) :
  leaving_time cfg = false →
  stops_trajectory measure_distance cfg tdf =
    (λ out, mkFrame (columns tdf) out.1 ∅) <$> stops_array measure_distance cfg (rows tdf).
Proof.
  intros Hoff. unfold stops_trajectory. rewrite Hoff.
  by destruct (stops_array measure_distance cfg (rows tdf)) as [[ss ls]|e].
Qed.

(** [_stops_trajectory] with the flag on: the same frame with the leaving
    times set as its ['leaving_datetime'] column; they are as many as the
    rows, so the assignment does not raise. *)
Lemma stops_trajectory_on (cfg : Config) (tdf : Frame Row) :
  leaving_time cfg = true →
  stops_trajectory measure_distance cfg tdf =
    (λ out, with_column "leaving_datetime" (VTime <$> out.2)
              (mkFrame (columns tdf) out.1 ∅)) <$>
    stops_array measure_distance cfg (rows tdf).
Proof.
  intros Hon. unfold stops_trajectory. rewrite Hon.
  destruct (stops_array measure_distance cfg (rows tdf)) as [[ss ls]|e] eqn:Hout; [|done].
  destruct (output_pairs measure_distance cfg (rows tdf) ss ls Hon Hout) as [Hlen _].
  cbn [mbind result_bind fmap result_fmap fst snd]. unfold set_column.
  cbn [rows]. by rewrite length_fmap, Hlen, Nat.eqb_refl.
Qed.

End FrameFacts.

(** ** C9: the radius handed to the detector, and the provenance *)

Section StopsFacts.

Variable measure_distance : Q * Q → Q * Q → Q.
Variable sort_by_uid_and_datetime : Frame Row → Frame Row.
Variable is_multi_user is_multi_trajectory : Frame Row → bool.
Variable groupby_apply :
  list string → (Frame Row → result (Frame Stop)) → Frame Row → result (Frame Stop).
Variable UID TID COMPRESSION_PARAMS DETECTION_PARAMS : string.

(** [stops] once the radius is resolved to a number. *)
Lemma stops_resolved (tdf : Frame Row) (factor minutes radius_km : Q) (leaving : bool)
    (gap_minutes : Q) (min_speed : option Q) (r : Q) :
  resolve_spatial_radius COMPRESSION_PARAMS
    (parameters (sort_by_uid_and_datetime tdf)) radius_km = VFloat r →
  stops measure_distance sort_by_uid_and_datetime is_multi_user is_multi_trajectory
    groupby_apply UID TID COMPRESSION_PARAMS DETECTION_PARAMS
    tdf factor minutes radius_km leaving gap_minutes min_speed =
  (stdf ← dispatch measure_distance is_multi_user is_multi_trajectory groupby_apply UID TID
            (mkConfig (r * factor) minutes leaving gap_minutes min_speed)
            (sort_by_uid_and_datetime tdf);
   Ok (with_provenance DETECTION_PARAMS stdf (parameters (sort_by_uid_and_datetime tdf))
         (detection_arguments factor minutes radius_km leaving gap_minutes min_speed))).
Proof. intros Hres. unfold stops. by rewrite Hres. Qed.

(** Without groups [_stops_trajectory] is called once, on the whole frame. *)
Lemma dispatch_ungrouped (cfg : Config) (tdf : Frame Row) :
  is_multi_user tdf = false → is_multi_trajectory tdf = false →
  dispatch measure_distance is_multi_user is_multi_trajectory groupby_apply UID TID cfg tdf =
  stops_trajectory measure_distance cfg tdf.
Proof. intros Hu Ht. unfold dispatch. by rewrite Hu, Ht. Qed.

End StopsFacts.

(** C9, as the code has it.  [stops] sorts the frame, then runs the detector
    ([dispatch]: once, or once per group) with [stop_radius] equal to
    [stop_radius_factor] times the [spatial_radius_km] recorded under the
    compression parameters of the frame when there is one, times the
    argument [spatial_radius_km] when there is none; without groups the
    frame returned holds the stops of [_stops_array] for that radius.  The
    frame returned carries the parameters of the input with, under the
    detection key, the dictionary of the call's arguments as they were
    passed: the function's name and the six arguments after [tdf].  Its
    [spatial_radius_km] entry is the argument, also when a recorded radius
    is the one used. *)
Theorem C9_radius_and_provenance
    (measure_distance : Q * Q → Q * Q → Q)
    (sort_by_uid_and_datetime : Frame Row → Frame Row)
    (is_multi_user is_multi_trajectory : Frame Row → bool)
    (groupby_apply :
       list string → (Frame Row → result (Frame Stop)) → Frame Row → result (Frame Stop))
    (UID TID COMPRESSION_PARAMS DETECTION_PARAMS : string)
    (tdf : Frame Row) (factor minutes radius_km : Q)
    (leaving : bool) (gap_minutes : Q) (min_speed : option Q) :
  let sorted := sort_by_uid_and_datetime tdf in
  let arguments :=
    detection_arguments factor minutes radius_km leaving gap_minutes min_speed in
  let run :=
    stops measure_distance sort_by_uid_and_datetime is_multi_user is_multi_trajectory
      groupby_apply UID TID COMPRESSION_PARAMS DETECTION_PARAMS
      tdf factor minutes radius_km leaving gap_minutes min_speed in
  let detect radius :=
    dispatch measure_distance is_multi_user is_multi_trajectory groupby_apply UID TID
      (mkConfig radius minutes leaving gap_minutes min_speed) sorted in
  (∀ d r, parameters sorted !! COMPRESSION_PARAMS = Some d →
          d !! "spatial_radius_km" = Some (VFloat r) →
          run = (stdf ← detect (r * factor)%Q;
                 Ok (with_provenance DETECTION_PARAMS stdf (parameters sorted) arguments))) ∧
  (parameters sorted !! COMPRESSION_PARAMS ≫= (λ d, d !! "spatial_radius_km") = None →
   run = (stdf ← detect (radius_km * factor)%Q;
          Ok (with_provenance DETECTION_PARAMS stdf (parameters sorted) arguments))) ∧
  (is_multi_user sorted = false → is_multi_trajectory sorted = false →
   ∀ radius,
     detect radius =
       (λ out, if leaving
               then with_column "leaving_datetime" (VTime <$> out.2)
                      (mkFrame (columns sorted) out.1 ∅)
               else mkFrame (columns sorted) out.1 ∅) <$>
       stops_array measure_distance
         (mkConfig radius minutes leaving gap_minutes min_speed) (rows sorted)) ∧
  (∀ stdf, run = Ok stdf →
     parameters stdf = <[DETECTION_PARAMS := arguments]> (parameters sorted) ∧
     parameters stdf !! DETECTION_PARAMS = Some arguments) ∧
  arguments !! "function" = Some (VStr "stops") ∧
  arguments !! "stop_radius_factor" = Some (VFloat factor) ∧
  arguments !! "minutes_for_a_stop" = Some (VFloat minutes) ∧
  arguments !! "spatial_radius_km" = Some (VFloat radius_km) ∧
  arguments !! "leaving_time" = Some (VBool leaving) ∧
  arguments !! "no_data_for_minutes" = Some (VFloat gap_minutes) ∧
  arguments !! "min_speed_kmh" =
    Some (match min_speed with Some q => VFloat q | None => VNone end) ∧
  size arguments = 7.
Proof.
  intros sorted arguments run detect. split; [|split; [|split; [|split]]].
  - intros d r Hd Hr. apply stops_resolved. unfold resolve_spatial_radius.
    fold sorted. rewrite Hd. cbn [mbind option_bind]. by rewrite Hr.
  - intros Hnone. apply stops_resolved. unfold resolve_spatial_radius.
    fold sorted. by rewrite Hnone.
  - intros Hu Ht radius. unfold detect. rewrite dispatch_ungrouped by done.
    destruct leaving.
    + by apply stops_trajectory_on.
    + by apply stops_trajectory_off.
  - intros stdf. unfold run, stops. fold sorted.
    destruct (py_mul _ _) as [radius|e]; [|done]. cbn [mbind result_bind].
    destruct (dispatch _ _ _ _ _ _ _ _) as [stdf0|e]; [|done]. cbn [mbind result_bind].
    intros [= <-]. cbn [parameters with_provenance]. split; [done|].
    apply lookup_insert_eq.
  - repeat split; try (destruct min_speed; vm_compute; reflexivity).
Qed.

(** C9, counterexample.  [compressed_frame] records the radius 1 km and
    [stops] is called with [spatial_radius_km = 0.2] and the factor 0.5: the
    detector runs with the radius 0.5 km and finds the stop of [walk_stay],
    which the radius 0.1 km of the arguments would not give, while the
    provenance of the result records [spatial_radius_km = 0.2]: the radius in
    effect is not among the recorded arguments. *)
Lemma C9_radius_and_provenance_counterexample :
  resolve_spatial_radius "compress" (parameters compressed_frame) (2 # 10) = VFloat 1 ∧
  ∃ stdf arguments,
    stops meridian_distance (λ t, t) (λ _, false) (λ _, false) (λ _ f t, f t)
      "uid" "tid" "compress" "detect"
      compressed_frame (1 # 2) 20 (2 # 10) false 1000000000000 None = Ok stdf ∧
    parameters stdf !! "detect" = Some arguments ∧
    arguments !! "spatial_radius_km" = Some (VFloat (2 # 10)) ∧
    arguments !! "stop_radius_factor" = Some (VFloat (1 # 2)) ∧
    length (rows stdf) = 1 ∧
    stops_array meridian_distance
      (mkConfig (1 * (1 # 2)) 20 false 1000000000000 None) walk_stay = Ok (rows stdf, []) ∧
    stops_array meridian_distance
      (mkConfig ((2 # 10) * (1 # 2)) 20 false 1000000000000 None) walk_stay = Ok ([], []).
Proof.
  assert (Hres : resolve_spatial_radius "compress" (parameters compressed_frame) (2 # 10)
                 = VFloat 1).
  { unfold resolve_spatial_radius, compressed_frame. cbn [parameters].
    rewrite lookup_singleton_eq. cbn [mbind option_bind]. by rewrite lookup_singleton_eq. }
  split; [exact Hres|].
  pose proof (stops_resolved meridian_distance (λ t, t) (λ _, false) (λ _, false)
                (λ _ f t, f t) "uid" "tid" "compress" "detect"
                compressed_frame (1 # 2) 20 (2 # 10) false 1000000000000 None 1 Hres) as Hrun.
  rewrite dispatch_ungrouped in Hrun by done.
  rewrite stops_trajectory_off in Hrun by done.
  assert (Hout : stops_array meridian_distance
                   (mkConfig (1 * (1 # 2)) 20 false 1000000000000 None) walk_stay =
                 Ok ([mkStop (np_median [0; 0; 1 # 1000; 0]%Q) (np_median [0; 0; 0; 0]%Q)
                        (minute 0) [VStr "d"]], [])) by (vm_compute; reflexivity).
  cbn [rows compressed_frame] in Hrun. rewrite Hout in Hrun.
  cbn [fmap result_fmap mbind result_bind fst] in Hrun.
  eexists _, _. split; [exact Hrun|]. cbn [parameters with_provenance].
  split; [apply lookup_insert_eq|].
  split; [vm_compute; reflexivity|]. split; [vm_compute; reflexivity|].
  split; [reflexivity|]. split; [exact Hout|]. vm_compute. reflexivity.
Qed.

(** ** C10: the [leaving_time] flag *)

Section LeavingFlag.

Variable measure_distance : Q * Q → Q * Q → Q.
Variable cfg : Config.

(** Dropping the leaving times commutes with the body of the loop run with
    the flag off. *)
Lemma loop_body_drop (prev cur : Row) (st : State) :
  drop_leaving <$> loop_body measure_distance cfg prev cur st =
  loop_body measure_distance (set_leaving_time cfg false) prev cur (drop_leaving st).
Proof.
  unfold loop_body, is_gap. cbn [no_data_for_minutes set_leaving_time].
  destruct (Qltb (no_data_for_minutes cfg) _);
    cbn [t_0 lat_0 lon_0 reanchor drop_leaving].
  all: destruct (speed_sample _ _) as [v|e]; [|done]; cbn [mbind result_bind].
  all: cbn [stop_radius minutes_for_a_stop min_speed_kmh set_leaving_time].
  all: destruct (Qltb (stop_radius cfg) _); [|done].
  all: destruct (Qltb (minutes_for_a_stop cfg) _); [|done].
  all: unfold estimate_leaving; cbn [speeds_kmh sum_t sum_lat sum_lon with_speed reanchor].
  all: destruct (min_speed_kmh cfg) as [ms|]; cbn [mbind result_bind].
  all: try (destruct (backward_scan _ ms) as [j|e]; [|done]; cbn [mbind result_bind];
            destruct (j =? 1); cbn [mbind result_bind];
            [|destruct (py_neg_index _ j) as [tj|e]; [|done]; cbn [mbind result_bind]]).
  all: unfold emit; cbn [leaving_time set_leaving_time].
  all: by destruct (0 <? length _), (leaving_time cfg).
Qed.

Lemma state_at_drop (pts : list Row) (n : nat) :
  drop_leaving <$> state_at measure_distance cfg pts n =
  state_at measure_distance (set_leaving_time cfg false) pts n.
Proof.
  induction n as [|n IH].
  - unfold state_at. by destruct (pts !! 0).
  - rewrite !state_at_S, <- IH.
    destruct (state_at measure_distance cfg pts n) as [st|e]; [|done].
    cbn [fmap result_fmap mbind result_bind]. unfold iteration.
    destruct (pts !! n) as [prev|]; [|done]. destruct (pts !! S n) as [cur|]; [|done].
    apply loop_body_drop.
Qed.

Lemma stops_array_drop (pts : list Row) :
  fst <$> stops_array measure_distance cfg pts =
  fst <$> stops_array measure_distance (set_leaving_time cfg false) pts.
Proof.
  unfold stops_array. rewrite <- state_at_drop.
  by destruct (state_at measure_distance cfg pts (length pts - 1)).
Qed.

End LeavingFlag.

(** C10, as the code has it.  Run with [leaving_time] on and with it off,
    [_stops_array] returns the same stops (or raises the same exception).
    [_stops_trajectory] returns, with the flag off, these stops in a frame
    with the columns of the input and no column added, and with the flag on
    the same frame with the leaving times set as its ['leaving_datetime']
    column, one for each row: the column is added when the input has none of
    that name and overwritten when it has one.  Setting a column changes
    nothing but the cells of that column.  So for an input with no
    ['leaving_datetime'] column the two frames differ by that column alone,
    the last cell of every stop. *)
Theorem C10_leaving_flag_frame (measure_distance : Q * Q → Q * Q → Q) (cfg : Config)
    (tdf : Frame Row) :
  let on := set_leaving_time cfg true in
  let off := set_leaving_time cfg false in
  fst <$> stops_array measure_distance on (rows tdf) =
    fst <$> stops_array measure_distance off (rows tdf) ∧
  stops_trajectory measure_distance off tdf =
    (λ out, mkFrame (columns tdf) out.1 ∅) <$>
    stops_array measure_distance on (rows tdf) ∧
  stops_trajectory measure_distance on tdf =
    (λ out, with_column "leaving_datetime" (VTime <$> out.2)
              (mkFrame (columns tdf) out.1 ∅)) <$>
    stops_array measure_distance on (rows tdf) ∧
  (∀ ss ls, stops_array measure_distance on (rows tdf) = Ok (ss, ls) →
            length ls = length ss) ∧
  (∀ (f : Frame Stop) (name : string) (vs : list PyVal),
     length vs = length (rows f) →
     columns (with_column name vs f) =
       (if decide (name ∈ columns f) then columns f else columns f ++ [name]) ∧
     parameters (with_column name vs f) = parameters f ∧
     length (rows (with_column name vs f)) = length (rows f) ∧
     ∀ k s, rows f !! k = Some s →
       ∃ s' v, rows (with_column name vs f) !! k = Some s' ∧ vs !! k = Some v ∧
               s_lat s' = s_lat s ∧ s_lng s' = s_lng s ∧ s_t s' = s_t s ∧
               (∀ i, columns f !! i ≠ Some name → i < length (s_extra s) →
                     s_extra s' !! i = s_extra s !! i) ∧
               (name ∉ columns f → s_extra s' = s_extra s ++ [v])) ∧
  ("leaving_datetime" ∉ columns tdf →
   ∀ ss ls, stops_array measure_distance on (rows tdf) = Ok (ss, ls) →
     stops_trajectory measure_distance off tdf = Ok (mkFrame (columns tdf) ss ∅) ∧
     stops_trajectory measure_distance on tdf =
       Ok (mkFrame (columns tdf ++ ["leaving_datetime"])
             (zip_with (λ l s, mkStop (s_lat s) (s_lng s) (s_t s) (s_extra s ++ [VTime l]))
                ls ss) ∅)).
Proof.
  intros on off.
  assert (Hsame : fst <$> stops_array measure_distance on (rows tdf) =
                  fst <$> stops_array measure_distance off (rows tdf)).
  { unfold on, off. by rewrite (stops_array_drop measure_distance (set_leaving_time cfg true)). }
  assert (Hoff : stops_trajectory measure_distance off tdf =
                 (λ out, mkFrame (columns tdf) out.1 ∅) <$>
                 stops_array measure_distance on (rows tdf)).
  { rewrite stops_trajectory_off by done.
    destruct (stops_array measure_distance on (rows tdf)) as [[ss ls]|e];
      destruct (stops_array measure_distance off (rows tdf)) as [[ss' ls']|e'];
      cbn [fmap result_fmap fst] in Hsame |- *; congruence. }
  assert (Hon : stops_trajectory measure_distance on tdf =
                (λ out, with_column "leaving_datetime" (VTime <$> out.2)
                          (mkFrame (columns tdf) out.1 ∅)) <$>
                stops_array measure_distance on (rows tdf))
    by by apply stops_trajectory_on.
  split; [done|]. split; [done|]. split; [done|]. split; [|split].
  - intros ss ls Hout.
    by destruct (output_pairs measure_distance on (rows tdf) ss ls eq_refl Hout).
  - intros f name vs Hlen. by apply with_column_frame.
  - intros Hnot ss ls Hout. rewrite Hoff, Hon, Hout.
    cbn [fmap result_fmap fst snd]. split; [done|].
    unfold with_column. cbn [columns rows parameters].
    rewrite decide_False by done. f_equal. f_equal.
    rewrite zip_with_fmap_l. apply zip_with_ext; [|done..].
    intros l s. unfold with_cell. by rewrite decide_False by done.
Qed.

(** C10, counterexample.  [kept_frame] has a ['leaving_datetime'] column of
    its own.  With the flag off the frame returned has that column too, with
    the cell carried from the row before the exit row; with the flag on the
    column is the same one, holding the leaving time: toggling the flag does
    not change whether the column is attached, and it changes a cell of the
    stop's other columns. *)
Lemma C10_leaving_flag_frame_counterexample :
  ∃ f_on f_off,
    stops_trajectory meridian_distance (set_leaving_time cfg_plain true) kept_frame =
      Ok f_on ∧
    stops_trajectory meridian_distance (set_leaving_time cfg_plain false) kept_frame =
      Ok f_off ∧
    columns f_off = ["tag"; "leaving_datetime"] ∧
    columns f_on = columns f_off ∧
    s_extra <$> rows f_off = [[VStr "d"; VStr "kept"]] ∧
    s_extra <$> rows f_on = [[VStr "d"; VTime (minute 35)]].
Proof.
  eexists _, _. split; [vm_compute; reflexivity|]. split; [vm_compute; reflexivity|].
  repeat split.
Qed.

(** ** The examples of the specification *)

(** Rows at minutes 0, 5, 10 and 30 within the radius, then a row out of it
    at minute 35: one stop, arrived at minute 0, at the median of the four
    rows, left at minute 35. *)
Example stay_then_exit :
  stops_array meridian_distance cfg_plain walk_stay =
    Ok ([mkStop (np_median [0; 0; 1 # 1000; 0]%Q) (np_median [0; 0; 0; 0]%Q)
           (minute 0) [VStr "d"]],
        [minute 35]).
Proof. vm_compute. reflexivity. Qed.

(** An exit 10 minutes after the anchor: no stop, and the detector is
    anchored at the exit row. *)
Example short_stay :
  stops_array meridian_distance cfg_plain walk_short = Ok ([], []) ∧
  ∃ st, state_at meridian_distance cfg_plain walk_short 2 = Ok st ∧
        t_0 st = minute 10 ∧ sum_t st = [minute 10] ∧ speeds_kmh st = [].
Proof.
  split; [reflexivity|]. eexists. split; [vm_compute; reflexivity|]. by repeat split.
Qed.

(** A silence of 2000 minutes with gaps from 60 minutes: the stop found
    starts after the silence; with no gap threshold it would start before. *)
Example silence_is_no_stop :
  stops_array meridian_distance cfg_gaps walk_silence =
    Ok ([mkStop (Some 0%Q) (Some 0%Q) (minute 2000) [VStr "b"]], [minute 2030]) ∧
  stops_array meridian_distance cfg_plain walk_silence =
    Ok ([mkStop (np_median [0; 0]%Q) (np_median [0; 0]%Q) (minute 0) [VStr "b"]],
        [minute 2030]).
Proof. split; vm_compute; reflexivity. Qed.

(** * Further properties of the detector *)

(** ** Sizes of the output *)

Section OutputSizes.

Variable measure_distance : Q * Q → Q * Q → Q.
Variable cfg : Config.
Variable pts : list Row.

Lemma state_at_0 (st : State) :
  state_at measure_distance cfg pts 0 = Ok st → st = init_state (row pts 0).
Proof.
  intros Hst. pose proof (state_at_Ok_lt _ _ _ _ _ Hst) as Hlt.
  unfold state_at in Hst. rewrite row_lookup in Hst by done. simpl in Hst. congruence.
Qed.

(** The state before an iteration that was reached. *)
Lemma state_at_pred (n : nat) (st : State) :
  state_at measure_distance cfg pts (S n) = Ok st →
  ∃ st0, state_at measure_distance cfg pts n = Ok st0.
Proof.
  intros Hst. pose proof (state_at_Ok_lt _ _ _ _ _ Hst) as Hlt.
  destruct (state_at_inv measure_distance cfg pts n) as (st0 & Hst0 & _); [lia|].
  by exists st0.
Qed.

Lemma state_sizes (n : nat) (st : State) :
  state_at measure_distance cfg pts n = Ok st →
  length (stops_l st) ≤ n ∧
  length (leaving_times st) = if leaving_time cfg then length (stops_l st) else 0.
Proof.
  revert st. induction n as [|n IH]; intros st Hst.
  - apply state_at_0 in Hst as ->. simpl. by destruct (leaving_time cfg).
  - destruct (state_at_pred n st Hst) as [st0 Hst0].
    destruct (IH st0 Hst0) as [Hlen Hlv].
    destruct (step_outcome_holds _ _ _ n st0 st Hst0 Hst)
      as [_ Hs Hl|est lats lons _ _ _ _ _ Hs Hl].
    + rewrite Hs, Hl. split; [lia|done].
    + rewrite Hs, Hl, length_app. simpl. split; [lia|].
      destruct (leaving_time cfg); [rewrite length_app; simpl; lia|done].
Qed.

Lemma output_sizes (ss : list Stop) (ls : list Z) :
  stops_array measure_distance cfg pts = Ok (ss, ls) →
  length ss ≤ length pts - 1 ∧
  length ls = if leaving_time cfg then length ss else 0.
Proof.
  unfold stops_array.
  destruct (state_at measure_distance cfg pts (length pts - 1)) as [st|e] eqn:Hst; [|done].
  cbn [mbind result_bind]. intros [= <- <-]. by apply state_sizes.
Qed.

End OutputSizes.

(** X1.  The detector returns at most one stop for each row after the
    first; it returns one leaving time for each stop when [leaving_time] is
    on and none when it is off. *)
Theorem X1_output_sizes (measure_distance : Q * Q → Q * Q → Q) (cfg : Config)
    (pts : list Row) (ss : list Stop) (ls : list Z) :
  stops_array measure_distance cfg pts = Ok (ss, ls) →
  length ss ≤ length pts - 1 ∧
  length ls = if leaving_time cfg then length ss else 0.
Proof.
  unfold stops_array.
  destruct (state_at measure_distance cfg pts (length pts - 1)) as [st|e] eqn:Hst; [|done].
  cbn [mbind result_bind]. intros [= <- <-]. by apply (state_sizes measure_distance cfg pts).
Qed.

(** X1, witness: [walk_stay], five rows, one stop and one leaving time. *)
Lemma X1_output_sizes_witness :
  ∃ ss ls, stops_array meridian_distance cfg_plain walk_stay = Ok (ss, ls) ∧
           length ss ≤ 4 ∧ length ls = length ss.
Proof.
  destruct (stops_array meridian_distance cfg_plain walk_stay) as [[ss ls]|e] eqn:Hout;
    [|vm_compute in Hout; discriminate].
  exists ss, ls. split; [reflexivity|].
  exact (X1_output_sizes meridian_distance cfg_plain walk_stay ss ls Hout).
Defined.

(** ** A trajectory that never leaves *)

(** X3.  When no row after the first comes after a data gap or lies out of
    the radius of the first row, the detector returns no stop and no leaving
    time, however long the rows span: the accumulator is still open when
    the sequence ends. *)
Theorem X3_never_left_no_stop (measure_distance : Q * Q → Q * Q → Q) (cfg : Config)
    (pts : list Row) :
  pts ≠ [] →
  (∀ k, 0 < k < length pts → leaves measure_distance cfg pts 0 k = false) →
  stops_array measure_distance cfg pts = Ok ([], []).
Proof.
  intros Hne Hstay.
  assert (0 < length pts) as Hlen by (destruct pts; [done|simpl; lia]).
  unfold stops_array.
  destruct (state_at_inv measure_distance cfg pts (length pts - 1)) as (st & Hst & _); [lia|].
  rewrite Hst. cbn [mbind result_bind].
  assert (Hnone : ∀ n st', n < length pts →
            state_at measure_distance cfg pts n = Ok st' → stops_l st' = []).
  { induction n as [|n IH]; intros st' Hn Hst'.
    - by apply state_at_0 in Hst' as ->.
    - destruct (state_at_pred _ _ _ n st' Hst') as [st0 Hst0].
      assert (Ha : anchor_at measure_distance cfg pts n = 0).
      { apply anchor_at_spec. split; [by left|]. split; [lia|].
        intros k Hk. apply Hstay. lia. }
      destruct (step_outcome_holds _ _ _ n st0 st' Hst0 Hst')
        as [_ Hs _|est lats lons Hg Hr _ _ _ _ _].
      + rewrite Hs. apply IH; [lia|done].
      + rewrite Ha in Hr. specialize (Hstay (S n)). unfold leaves in Hstay.
        rewrite Hg, Hr in Hstay. discriminate Hstay. lia. }
  pose proof (state_sizes _ _ _ _ _ Hst) as [_ Hlv].
  assert (Hs : stops_l st = []) by (apply (Hnone (length pts - 1)); [lia|done]).
  rewrite Hs in Hlv |- *.
  destruct (leaving_times st); [done|]. by destruct (leaving_time cfg).
Qed.

(** X3, witness: the first four rows of [walk_stay], 30 minutes within
    200 m of the first. *)
Lemma X3_never_left_no_stop_witness :
  take 4 walk_stay ≠ [] ∧
  stops_array meridian_distance cfg_plain (take 4 walk_stay) = Ok ([], []).
Proof.
  assert (Hne : take 4 walk_stay ≠ []) by discriminate.
  split; [exact Hne|].
  apply (X3_never_left_no_stop meridian_distance cfg_plain (take 4 walk_stay) Hne).
  intros k Hk. simpl in Hk.
  destruct k as [|[|[|[|k]]]]; [lia|reflexivity|reflexivity|reflexivity|lia].
Defined.

(** ** The rows behind a stop *)

Section StopRows.

Variable measure_distance : Q * Q → Q * Q → Q.
Variable cfg : Config.
Variable pts : list Row.

Lemma anchor_at_mono (m n : nat) :
  m ≤ n → anchor_at measure_distance cfg pts m ≤ anchor_at measure_distance cfg pts n.
Proof.
  induction 1 as [|n Hle IH]; [done|]. cbn [anchor_at].
  destruct (leaves _ _ _ _ _); [|done].
  pose proof (anchor_at_le measure_distance cfg pts m). lia.
Qed.

(** The row that closes a stop is the next anchor. *)
Lemma emitted_at_anchor (n : nat) (s : Stop) :
  emitted_at measure_distance cfg pts n s →
  anchor_at measure_distance cfg pts (S n) = S n.
Proof.
  intros Hem. apply emitted_at_inv in Hem as (_ & _ & _ & _ & _ & _ & Hr & _).
  cbn [anchor_at]. unfold leaves. rewrite Hr, orb_true_r. done.
Qed.

(** The estimate trims [j] trailing rows, no more than there are speed
    samples of rows before the exit row. *)
Lemma exit_estimate_trim (st : State) (cur : Row) (est : Z) (lats lons : list Q) :
  exit_estimate measure_distance cfg st cur = Ok (est, lats, lons) →
  ∃ j, j ≤ length (speeds_kmh st) ∧
       lats = take (length (sum_lat st) - j) (sum_lat st) ∧
       lons = take (length (sum_lon st) - j) (sum_lon st) ∧
       ((j = 0 ∧ est = dtime cur) ∨
        (2 ≤ j ≤ length (sum_t st) ∧ sum_t st !! (length (sum_t st) - j) = Some est)).
Proof.
  intros Hest. pose proof Hest as Hkept.
  apply exit_estimate_kept in Hkept as (j & Hlats & Hlons & Hcase).
  destruct Hcase as [[-> ->]|[Hj Hlk]].
  { exists 0. split; [lia|]. split; [done|]. split; [done|]. by left. }
  revert Hest. unfold exit_estimate.
  destruct (speed_sample_total
              (measure_distance (lat_0 st, lon_0 st) (lat cur, lng cur))
              (diff_minutes (t_0 st) (dtime cur))) as [v ->].
  cbn [mbind result_bind]. unfold estimate_leaving.
  destruct (min_speed_kmh cfg) as [ms|].
  2:{ intros [= <- <- <-]. exists 0. split; [lia|]. rewrite !Nat.sub_0_r, !firstn_all.
      split; [done|]. split; [done|]. by left. }
  destruct (backward_scan_spec (speeds_kmh (with_speed st v)) ms) as (j' & -> & H1 & Hr & _).
  cbn [mbind result_bind]. destruct (Nat.eqb_spec j' 1) as [->|Hne].
  { intros [= <- <- <-]. exists 0. split; [lia|]. rewrite !Nat.sub_0_r, !firstn_all.
    split; [done|]. split; [done|]. by left. }
  destruct (py_neg_index (sum_t (with_speed st v)) j') as [tj|e] eqn:Htj; [|done].
  cbn [mbind result_bind]. intros [= <- <- <-].
  apply py_neg_index_inv in Htj as [Hle' Hlk']; [|lia].
  cbn [sum_t sum_lat sum_lon speeds_kmh with_speed] in *.
  rewrite length_app in Hr. simpl in Hr.
  exists j'. split; [lia|]. unfold py_drop_last. destruct j' as [|j']; [lia|].
  split; [done|]. split; [done|]. right. split; [lia|done].
Qed.

Lemma exit_estimate_total (n : nat) (st : State) (cur : Row) :
  n < length pts → acc_inv measure_distance cfg pts n st →
  ∃ r, exit_estimate measure_distance cfg st cur = Ok r.
Proof.
  intros Hn (_ & _ & _ & _ & _ & Ht & Hsp). unfold exit_estimate.
  destruct (speed_sample_total
              (measure_distance (lat_0 st, lon_0 st) (lat cur, lng cur))
              (diff_minutes (t_0 st) (dtime cur))) as [v ->].
  cbn [mbind result_bind]. apply estimate_leaving_total.
  pose proof (anchor_at_le measure_distance cfg pts n).
  cbn [speeds_kmh sum_t with_speed].
  rewrite length_app, Ht, length_fmap, rows_from_to_length, Hsp by lia. simpl.
  destruct (gap_anchor _ _ _ _); lia.
Qed.

(** The rows kept by an estimate that trims [j] rows. *)
Lemma rows_from_to_take (a n j : nat) :
  a ≤ n → n < length pts → j ≤ n - a →
  take (S n - a - j) (rows_from_to pts a n) = rows_from_to pts a (n - j).
Proof.
  intros Ha Hn Hj. unfold rows_from_to. rewrite take_take.
  f_equal. lia.
Qed.

(** An emission in the terms of the raw sequence: the stop is computed from
    rows [a .. m], and the estimate is the timestamp of row [m+1]. *)
Lemma emission_rows (n : nat) (s : Stop) (est : Z) :
  emission measure_distance cfg pts n s est →
  ∃ m, anchor_at measure_distance cfg pts n ≤ m ≤ n ∧ (m = n ∨ m + 2 ≤ n) ∧
       (min_speed_kmh cfg = None → m = n) ∧
       s_lat s = np_median (lat <$> rows_from_to pts (anchor_at measure_distance cfg pts n) m) ∧
       s_lng s = np_median (lng <$> rows_from_to pts (anchor_at measure_distance cfg pts n) m) ∧
       s_t s = dtime (row pts (anchor_at measure_distance cfg pts n)) ∧
       s_extra s = other (row pts n) ∧
       est = dtime (row pts (S m)).
Proof.
  intros [Hem (st & lats & lons & Hst & Hest & Hne & ->)].
  pose proof (emitted_at_lt _ _ _ _ _ Hem) as Hlt.
  destruct (state_at_acc_inv _ _ _ n st Hst) as (_ & _ & Ht & Hlat & Hlon & Hsumt & _).
  pose proof (anchor_at_le measure_distance cfg pts n) as Hle.
  set (a := anchor_at measure_distance cfg pts n) in *.
  assert (Hlen : length (rows_from_to pts a n) = S n - a)
    by (apply rows_from_to_length; lia).
  assert (Hnone : min_speed_kmh cfg = None → est = dtime (row pts (S n)) ∧ lats = sum_lat st
                                              ∧ lons = sum_lon st).
  { intros Hms. rewrite exit_estimate_None in Hest by done. by injection Hest as <- <- <-. }
  apply exit_estimate_trim in Hest as (j & _ & Hlats & Hlons & Hcase).
  rewrite Hlat, length_fmap, Hlen in Hlats. rewrite Hlon, length_fmap, Hlen in Hlons.
  assert (Hj : j ≤ n - a).
  { destruct (decide (j ≤ n - a)) as [?|Hgt]; [done|]. exfalso. apply Hne.
    rewrite Hlats. replace (S n - a - j) with 0 by lia. done. }
  rewrite <- fmap_take, rows_from_to_take in Hlats, Hlons by lia.
  exists (n - j). cbn [s_lat s_lng s_t s_extra]. rewrite <- Hlats, <- Hlons.
  split; [lia|]. split; [destruct Hcase as [[-> _]|[? _]]; lia|].
  split.
  { intros Hms. destruct (Hnone Hms) as (_ & Hl & _). rewrite Hl, Hlat in Hlats.
    apply (f_equal length) in Hlats. rewrite !length_fmap, Hlen in Hlats.
    rewrite rows_from_to_length in Hlats by lia. lia. }
  split; [done|]. split; [done|]. split; [done|]. split; [done|].
  destruct Hcase as [[-> ->]|[Hj2 Hlk]]; [by rewrite Nat.sub_0_r|].
  rewrite Hsumt, list_lookup_fmap, length_fmap, Hlen in Hlk.
  rewrite rows_from_to_lookup in Hlk by lia. simpl in Hlk. injection Hlk as <-.
  f_equal. f_equal. lia.
Qed.

Lemma emitted_at_emission (n : nat) (s : Stop) :
  emitted_at measure_distance cfg pts n s →
  ∃ est, emission measure_distance cfg pts n s est.
Proof.
  intros Hem. pose proof Hem as Hem'.
  apply emitted_at_inv in Hem' as (st & est & lats & lons & Hst & _ & _ & _ & Hest & Hne & Hs & _).
  exists est. split; [done|]. by exists st, lats, lons.
Qed.

Lemma emitted_with_emission (n : nat) (s : Stop) (d : Z) :
  emitted_with measure_distance cfg pts n s d → emission measure_distance cfg pts n s d.
Proof.
  intros Hem. split; [by eapply emitted_with_at|].
  apply emitted_with_inv in Hem as (st & lats & lons & Hst & _ & _ & Hest & Hne & Hs).
  by exists st, lats, lons.
Qed.

End StopRows.

(** X7.  A stop emitted by iteration [n] for the anchor [a] is computed from
    the rows [a .. m] of the sequence, for some [m] from [a] to [n]: its
    coordinates are the medians of their latitudes and longitudes, and the
    leaving time appended with it is the timestamp of row [m+1], the row
    that follows the last row kept.  Either nothing is trimmed ([m = n], the
    leaving time is the exit row's), always so when [min_speed_kmh] is unset,
    or at least two rows are. *)
Theorem X7_stop_from_rows (measure_distance : Q * Q → Q * Q → Q) (cfg : Config)
    (pts : list Row) (n : nat) (s : Stop) :
  emitted_at measure_distance cfg pts n s →
  ∃ m, anchor_at measure_distance cfg pts n ≤ m ≤ n ∧ (m = n ∨ m + 2 ≤ n) ∧
       (min_speed_kmh cfg = None → m = n) ∧
       s_lat s = np_median (lat <$> rows_from_to pts (anchor_at measure_distance cfg pts n) m) ∧
       s_lng s = np_median (lng <$> rows_from_to pts (anchor_at measure_distance cfg pts n) m) ∧
       s_t s = dtime (row pts (anchor_at measure_distance cfg pts n)) ∧
       s_extra s = other (row pts n) ∧
       ∀ d, emitted_with measure_distance cfg pts n s d → d = dtime (row pts (S m)).
Proof.
  intros Hem. destruct (emitted_at_emission _ _ _ _ _ Hem) as [est Hemi].
  pose proof Hemi as (_ & st & lats & lons & Hst & Hest & _).
  destruct (emission_rows _ _ _ _ _ _ Hemi) as (m & Hm & Hcase & Hnone & Hla & Hlo & Ht & Hx & He).
  exists m. do 7 (split; [done|]).
  intros d Hd. apply emitted_with_inv in Hd as (st' & lats' & lons' & Hst' & _ & _ & Hest' & _).
  assert (st' = st) as -> by congruence. congruence.
Qed.

(** X7, witness: [walk_drift] with the threshold 0.1 km/h: the stop is
    computed from row 0 alone and leaves at the time of row 1. *)
Lemma X7_stop_from_rows_witness :
  ∃ s, emitted_at meridian_distance cfg_slow walk_drift 2 s ∧
       s_lat s = np_median [0%Q] ∧
       emitted_with meridian_distance cfg_slow walk_drift 2 s (minute 10).
Proof.
  destruct (state_at meridian_distance cfg_slow walk_drift 2) as [st|e] eqn:H2;
    [|vm_compute in H2; discriminate].
  destruct (state_at meridian_distance cfg_slow walk_drift 3) as [st'|e] eqn:H3;
    [|vm_compute in H3; discriminate].
  assert (Hs : ∃ s, stops_l st' = stops_l st ++ [s] ∧
                    leaving_times st' = leaving_times st ++ [minute 10]).
  { vm_compute in H2, H3. injection H2 as <-. injection H3 as <-. by eexists. }
  destruct Hs as (s & Hs & Hl). exists s.
  assert (Hem : emitted_at meridian_distance cfg_slow walk_drift 2 s) by (by exists st, st').
  assert (Hw : emitted_with meridian_distance cfg_slow walk_drift 2 s (minute 10))
    by (by exists st, st').
  split; [exact Hem|].
  destruct (X7_stop_from_rows meridian_distance cfg_slow walk_drift 2 s Hem)
    as (m & Hm & _ & _ & Hlat & _ & _ & _ & Hd).
  split; [|exact Hw].
  specialize (Hd _ Hw). rewrite Hlat.
  destruct m as [|[|[|m]]]; [reflexivity| | |vm_compute in Hm; lia];
    vm_compute in Hd; discriminate Hd.
Defined.

(** ** The anchor row is kept *)

(** X6.  While the anchor was not set by a data gap (it is the first row,
    or a row that left the radius), the estimate of the leaving time never
    trims the anchor row, whatever [min_speed_kmh] is: a stop is emitted
    exactly when the row read closes a run of the specification. *)
Theorem X6_anchor_row_kept (measure_distance : Q * Q → Q * Q → Q) (cfg : Config)
    (pts : list Row) (n : nat) :
  gap_anchor measure_distance cfg pts (anchor_at measure_distance cfg pts n) = false →
  (S n < length pts → keeps_some measure_distance cfg pts n) ∧
  ((∃ s, emitted_at measure_distance cfg pts n s) ↔
   (∃ a, stop_run measure_distance cfg pts a (S n))).
Proof.
  intros Hga.
  assert (Hkeep : S n < length pts → keeps_some measure_distance cfg pts n).
  { intros Hlt.
    destruct (state_at_inv measure_distance cfg pts n) as (st & Hst & Hinv); [lia|].
    destruct (exit_estimate_total measure_distance cfg pts n st (row pts (S n)))
      as [[[est lats] lons] Hest]; [lia|done|].
    exists st, est, lats, lons. split; [done|]. split; [done|].
    destruct Hinv as (_ & _ & _ & Hlat & _ & _ & Hsp). rewrite Hga in Hsp.
    pose proof (anchor_at_le measure_distance cfg pts n) as Hle.
    apply exit_estimate_trim in Hest as (j & Hj & Hlats & _).
    intros Hnil. rewrite Hnil in Hlats. apply (f_equal length) in Hlats.
    rewrite length_take, Hlat, length_fmap, rows_from_to_length in Hlats by lia.
    simpl in Hlats. lia. }
  split; [done|]. rewrite emitted_iff. split; [by intros [? _]|].
  intros [a Hrun]. split; [by exists a|].
  apply Hkeep. by destruct Hrun as (_ & [_ ?] & _).
Qed.

(** X6, witness: [walk_drift] with the threshold 0.1 km/h; the anchor is
    the first row, and row 3 closes its run. *)
Lemma X6_anchor_row_kept_witness :
  gap_anchor meridian_distance cfg_slow walk_drift
    (anchor_at meridian_distance cfg_slow walk_drift 2) = false ∧
  keeps_some meridian_distance cfg_slow walk_drift 2.
Proof.
  split; [reflexivity|].
  apply (X6_anchor_row_kept meridian_distance cfg_slow walk_drift 2 eq_refl).
  simpl. lia.
Defined.

(** ** Stops in order *)

Section Order.

Variable measure_distance : Q * Q → Q * Q → Q.
Variable cfg : Config.
Variable pts : list Row.

(** The output with, for each stop, the iteration that appended it and the
    estimate of its leaving time: iterations increase along the output. *)
Lemma ordered_trace (n : nat) (st : State) :
  state_at measure_distance cfg pts n = Ok st →
  ∃ tr : list (nat * (Stop * Z)),
    stops_l st = (tr.*2).*1 ∧
    leaving_times st = (if leaving_time cfg then (tr.*2).*2 else []) ∧
    Forall (λ e, e.1 < n ∧ emission measure_distance cfg pts e.1 e.2.1 e.2.2) tr ∧
    ∀ i j e e', i < j → tr !! i = Some e → tr !! j = Some e' → e.1 < e'.1.
Proof.
  revert st. induction n as [|n IH]; intros st Hst.
  - apply state_at_0 in Hst as ->. exists []. simpl.
    split; [done|]. split; [by destruct (leaving_time cfg)|]. split; [constructor|].
    intros i j e e' _ Hi. done.
  - destruct (state_at_pred _ _ _ n st Hst) as [st0 Hst0].
    destruct (IH st0 Hst0) as (tr & Htr & Htl & Hall & Hord).
    assert (Hall' : Forall (λ e, e.1 < S n ∧
                       emission measure_distance cfg pts e.1 e.2.1 e.2.2) tr).
    { eapply Forall_impl; [exact Hall|]. intros e [? ?]. split; [lia|done]. }
    destruct (step_outcome_holds _ _ _ n st0 st Hst0 Hst)
      as [_ Hs Hl|est lats lons Hg Hr Hm Hest Hne Hs Hl].
    + exists tr. split; [congruence|]. split; [congruence|]. done.
    + set (s0 := mkStop (np_median lats) (np_median lons) (t_0 st0) (other (row pts n))) in *.
      exists (tr ++ [(n, (s0, est))]).
      split; [by rewrite Hs, Htr, !fmap_app|]. split.
      { rewrite Hl, Htl. destruct (leaving_time cfg); [by rewrite !fmap_app|done]. }
      split.
      { apply Forall_app. split; [done|]. constructor; [|constructor].
        split; [simpl; lia|]. split; [by exists st0, st|by exists st0, lats, lons]. }
      intros i j e e' Hij Hi Hj.
      assert (Hlti : i < length tr).
      { apply lookup_lt_Some in Hj. rewrite length_app in Hj. simpl in Hj. lia. }
      rewrite lookup_app_l in Hi by done.
      destruct (decide (j < length tr)) as [Hltj|Hgej].
      * rewrite lookup_app_l in Hj by done. exact (Hord i j e e' Hij Hi Hj).
      * rewrite lookup_app_r in Hj by lia.
        destruct (j - length tr) as [|?]; [|done]. simpl in Hj. injection Hj as <-.
        rewrite Forall_lookup in Hall. destruct (Hall _ _ Hi) as [? _]. simpl. lia.
Qed.

(** An estimate lies between the anchor's timestamp and the exit row's. *)
Lemma emission_bounds (n : nat) (s : Stop) (est : Z) :
  time_ordered pts → emission measure_distance cfg pts n s est →
  (s_t s ≤ est ≤ dtime (row pts (S n)))%Z.
Proof.
  intros Hord Hemi. pose proof Hemi as [Hem _].
  pose proof (emitted_at_lt _ _ _ _ _ Hem) as Hlt.
  destruct (emission_rows _ _ _ _ _ _ Hemi) as (m & Hm & _ & _ & _ & _ & -> & _ & ->).
  split; apply Hord; lia.
Qed.

End Order.

(** X2.  Stops come out in the order of the trajectory and never overlap.
    Two emitted stops have disjoint rows: the later one is anchored at or
    after the row that closed the earlier one.  On timestamps that never
    decrease, the stops returned have non-decreasing times, and with
    [leaving_time] on the leaving time of a stop is at most the arrival time
    of the next. *)
Theorem X2_stops_in_order (measure_distance : Q * Q → Q * Q → Q) (cfg : Config)
    (pts : list Row) :
  (∀ n n' s s', n < n' →
     emitted_at measure_distance cfg pts n s →
     emitted_at measure_distance cfg pts n' s' →
     S n ≤ anchor_at measure_distance cfg pts n') ∧
  (time_ordered pts →
   ∀ ss ls, stops_array measure_distance cfg pts = Ok (ss, ls) →
     (∀ k s s', ss !! k = Some s → ss !! S k = Some s' → (s_t s ≤ s_t s')%Z) ∧
     (leaving_time cfg = true →
      ∀ k d s', ls !! k = Some d → ss !! S k = Some s' → (d ≤ s_t s')%Z)).
Proof.
  assert (Hrows : ∀ n n' s, n < n' →
            emitted_at measure_distance cfg pts n s →
            S n ≤ anchor_at measure_distance cfg pts n').
  { intros n n' s Hlt Hem. rewrite <- (emitted_at_anchor _ _ _ _ _ Hem).
    apply anchor_at_mono. lia. }
  split; [intros n n' s s' Hlt Hem _; by eapply Hrows|].
  intros Hord ss ls. unfold stops_array.
  destruct (state_at measure_distance cfg pts (length pts - 1)) as [st|e] eqn:Hst; [|done].
  cbn [mbind result_bind]. intros [= <- <-].
  destruct (ordered_trace _ _ _ _ _ Hst) as (tr & -> & Htl & Hall & Hsorted).
  rewrite Forall_lookup in Hall.
  assert (Hnext : ∀ k e e', tr !! k = Some e → tr !! S k = Some e' →
            (e.2.2 ≤ s_t e'.2.1)%Z ∧ (s_t e.2.1 ≤ s_t e'.2.1)%Z).
  { intros k e e' He He'.
    destruct (Hall _ _ He) as [_ Hemi]. destruct (Hall _ _ He') as [Hlt' Hemi'].
    pose proof (Hsorted k (S k) e e' (Nat.lt_succ_diag_r k) He He') as Hlt.
    pose proof (emission_bounds _ _ _ _ _ _ Hord Hemi) as [Hlo Hhi].
    pose proof (Hrows _ _ _ Hlt (proj1 Hemi)) as Hanchor.
    pose proof (anchor_at_le measure_distance cfg pts e'.1) as Hle.
    destruct (emission_rows _ _ _ _ _ _ Hemi') as (_ & _ & _ & _ & _ & _ & -> & _).
    assert (dtime (row pts (S e.1)) ≤
            dtime (row pts (anchor_at measure_distance cfg pts e'.1)))%Z
      by (apply Hord; lia).
    lia. }
  split.
  - intros k s s' Hs Hs'. rewrite !list_lookup_fmap in Hs. rewrite !list_lookup_fmap in Hs'.
    destruct (tr !! k) as [e|] eqn:He; [|done].
    destruct (tr !! S k) as [e'|] eqn:He'; [|done].
    simpl in Hs, Hs'. injection Hs as <-. injection Hs' as <-.
    by destruct (Hnext k e e' He He').
  - intros Hlv k d s' Hd Hs'. rewrite Hlv in Htl. rewrite Htl in Hd.
    rewrite !list_lookup_fmap in Hd. rewrite !list_lookup_fmap in Hs'.
    destruct (tr !! k) as [e|] eqn:He; [|done].
    destruct (tr !! S k) as [e'|] eqn:He'; [|done].
    simpl in Hd, Hs'. injection Hd as <-. injection Hs' as <-.
    by destruct (Hnext k e e' He He').
Qed.

(** ** The detector reads its rows once, in order *)

Section Online.

Variable measure_distance : Q * Q → Q * Q → Q.
Variable cfg : Config.
Variable pts : list Row.

(** The state at the head of iteration [n] depends on rows [0 .. n] only. *)
Lemma state_at_take (m n : nat) :
  n < m →
  state_at measure_distance cfg (take m pts) n = state_at measure_distance cfg pts n.
Proof.
  induction n as [|n IH]; intros Hn.
  - unfold state_at. by rewrite lookup_take_lt by lia.
  - rewrite !state_at_S, IH by lia.
    destruct (state_at measure_distance cfg pts n) as [st|e]; [|done].
    cbn [mbind result_bind]. unfold iteration. by rewrite !lookup_take_lt by lia.
Qed.

(** Stops and leaving times are only ever appended. *)
Lemma output_grows (k k' : nat) (st st' : State) :
  k ≤ k' →
  state_at measure_distance cfg pts k = Ok st →
  state_at measure_distance cfg pts k' = Ok st' →
  stops_l st `prefix_of` stops_l st' ∧ leaving_times st `prefix_of` leaving_times st'.
Proof.
  intros Hle Hst. revert st'. induction Hle as [|k' Hle IH]; intros st' Hst'.
  - assert (st' = st) as -> by congruence. done.
  - destruct (state_at_pred _ _ _ k' st' Hst') as [st0 Hst0].
    destruct (IH st0 Hst0) as [Hs0 Hl0].
    destruct (step_outcome_holds _ _ _ k' st0 st' Hst0 Hst')
      as [_ Hs Hl|est lats lons _ _ _ _ _ Hs Hl].
    + by rewrite Hs, Hl.
    + rewrite Hs, Hl. split; [by apply prefix_app_r|].
      destruct (leaving_time cfg); [by apply prefix_app_r|done].
Qed.

End Online.

(** X4.  The detector works online: run on the first [m] rows of a
    sequence it returns a prefix of the stops, and of the leaving times, that
    it returns on the whole sequence; rows read later never change or remove
    a stop already found. *)
Theorem X4_prefix_of_rows (measure_distance : Q * Q → Q * Q → Q) (cfg : Config)
    (pts : list Row) (m : nat) (ss : list Stop) (ls : list Z) :
  0 < m ≤ length pts →
  stops_array measure_distance cfg pts = Ok (ss, ls) →
  ∃ ss' ls', stops_array measure_distance cfg (take m pts) = Ok (ss', ls') ∧
             ss' `prefix_of` ss ∧ ls' `prefix_of` ls.
Proof.
  intros Hm. unfold stops_array.
  destruct (state_at measure_distance cfg pts (length pts - 1)) as [st|e] eqn:Hst; [|done].
  cbn [mbind result_bind]. intros [= <- <-].
  rewrite length_take, Nat.min_l, state_at_take by lia.
  destruct (state_at_inv measure_distance cfg pts (m - 1)) as (st0 & Hst0 & _); [lia|].
  rewrite Hst0. cbn [mbind result_bind]. eexists _, _. split; [done|].
  apply (output_grows measure_distance cfg pts (m - 1) (length pts - 1)); [lia|done|done].
Qed.

(** X4, witness: [walk_stay] and its first four rows, which hold no stop
    yet. *)
Lemma X4_prefix_of_rows_witness :
  0 < 4 ≤ length walk_stay ∧
  ∃ ss ls ss' ls',
    stops_array meridian_distance cfg_plain walk_stay = Ok (ss, ls) ∧
    stops_array meridian_distance cfg_plain (take 4 walk_stay) = Ok (ss', ls') ∧
    ss' `prefix_of` ss ∧ ls' `prefix_of` ls.
Proof.
  assert (Hm : 0 < 4 ≤ length walk_stay) by (simpl; lia).
  split; [exact Hm|].
  destruct (stops_array meridian_distance cfg_plain walk_stay) as [[ss ls]|e] eqn:Hout;
    [|vm_compute in Hout; discriminate].
  destruct (X4_prefix_of_rows meridian_distance cfg_plain walk_stay 4 ss ls Hm Hout)
    as (ss' & ls' & Hpre & Hss & Hls).
  exists ss, ls, ss', ls'. split; [reflexivity|]. split; [exact Hpre|]. split; assumption.
Defined.

(** ** The callers at their edges *)

Lemma stops_trajectory_result (measure_distance : Q * Q → Q * Q → Q) (cfg : Config)
    (tdf : Frame Row) :
  (rows tdf = [] → stops_trajectory measure_distance cfg tdf = Raise IndexError) ∧
  (rows tdf ≠ [] →
   ∃ ss ls, stops_array measure_distance cfg (rows tdf) = Ok (ss, ls) ∧
            length ls = (if leaving_time cfg then length ss else 0) ∧
            stops_trajectory measure_distance cfg tdf =
              Ok (if leaving_time cfg
                  then with_column "leaving_datetime" (VTime <$> ls)
                         (mkFrame (columns tdf) ss ∅)
                  else mkFrame (columns tdf) ss ∅)).
Proof.
  split.
  - intros Hnil. unfold stops_trajectory. by rewrite Hnil.
  - intros Hne.
    assert (0 < length (rows tdf)) as Hlen by (destruct (rows tdf); [done|simpl; lia]).
    destruct (stops_array measure_distance cfg (rows tdf)) as [[ss ls]|e] eqn:Hout.
    + exists ss, ls. split; [done|].
      pose proof (output_sizes measure_distance cfg (rows tdf) ss ls Hout) as [_ Hl].
      split; [done|]. destruct (leaving_time cfg) eqn:Hflag.
      * rewrite stops_trajectory_on by done. by rewrite Hout.
      * rewrite stops_trajectory_off by done. by rewrite Hout.
    + exfalso. unfold stops_array in Hout.
      destruct (state_at_inv measure_distance cfg (rows tdf) (length (rows tdf) - 1))
        as (st & Hst & _); [lia|].
      by rewrite Hst in Hout.
Qed.

(** X8.  [_stops_trajectory] raises [IndexError] on a frame with no row.
    On any other frame it returns the stops of [_stops_array] in a frame with
    the columns of the input and empty parameters, whatever the parameters
    of the input; when [leaving_time] is on the leaving times are set as the
    column ['leaving_datetime'], added after the others or overwriting a
    column of that name, and they are always as many as the rows (no
    [ValueError]); when it is off no column is added or changed. *)
Theorem X8_stops_trajectory_edges (measure_distance : Q * Q → Q * Q → Q) (cfg : Config)
    (tdf : Frame Row) :
  (rows tdf = [] → stops_trajectory measure_distance cfg tdf = Raise IndexError) ∧
  (rows tdf ≠ [] →
   ∃ ss ls, stops_array measure_distance cfg (rows tdf) = Ok (ss, ls) ∧
            length ls = (if leaving_time cfg then length ss else 0) ∧
            stops_trajectory measure_distance cfg tdf =
              Ok (if leaving_time cfg
                  then with_column "leaving_datetime" (VTime <$> ls)
                         (mkFrame (columns tdf) ss ∅)
                  else mkFrame (columns tdf) ss ∅)) ∧
  (∀ f, stops_trajectory measure_distance cfg tdf = Ok f →
        parameters f = ∅ ∧
        length (rows f) ≤ length (rows tdf) - 1 ∧
        columns f =
          if leaving_time cfg && bool_decide ("leaving_datetime" ∉ columns tdf)
          then columns tdf ++ ["leaving_datetime"]
          else columns tdf).
Proof.
  destruct (stops_trajectory_result measure_distance cfg tdf) as [Hempty Hfull].
  split; [done|]. split; [done|].
  intros f Hf. destruct (decide (rows tdf = [])) as [Hnil|Hne].
  { rewrite (Hempty Hnil) in Hf. discriminate Hf. }
  destruct (Hfull Hne) as (ss & ls & Hout & Hl & Hres).
  rewrite Hres in Hf. injection Hf as <-.
  pose proof (output_sizes measure_distance cfg (rows tdf) ss ls Hout) as [Hss _].
  destruct (leaving_time cfg).
  - cbn [andb parameters columns rows with_column].
    split; [done|]. split.
    + rewrite length_zip_with, length_fmap. lia.
    + destruct (decide ("leaving_datetime" ∈ columns tdf)) as [Hin|Hnot].
      * by rewrite bool_decide_eq_false_2 by (intros Hn; by apply Hn).
      * by rewrite bool_decide_eq_true_2.
  - by cbn [andb parameters columns rows].
Qed.

(** ** Stops lie within the trajectory *)

From Stdlib Require Import Lqa.

(** A median lies between any bounds of the items. *)
Lemma np_median_bounds (l : list Q) (lo hi m : Q) :
  (∀ x, x ∈ l → lo <= x <= hi)%Q → np_median l = Some m → (lo <= m <= hi)%Q.
Proof.
  intros Hall. unfold np_median.
  assert (Hin : ∀ i x, QSort.sort l !! i = Some x → (lo <= x <= hi)%Q).
  { intros i x Hx. apply Hall. apply list_elem_of_lookup_2 in Hx.
    by rewrite (QSort.Permuted_sort l). }
  destruct (length (QSort.sort l) =? 0); [done|].
  destruct (Nat.even (length (QSort.sort l))).
  - destruct (QSort.sort l !! (length (QSort.sort l) / 2 - 1)) as [a|] eqn:Ha; [|done].
    destruct (QSort.sort l !! (length (QSort.sort l) / 2)) as [b|] eqn:Hb; [|done].
    cbn [mbind option_bind]. intros [= <-].
    pose proof (Hin _ _ Ha) as [? ?]. pose proof (Hin _ _ Hb) as [? ?].
    split.
    + apply Qle_shift_div_l; [reflexivity|lra].
    + apply Qle_shift_div_r; [reflexivity|lra].
  - intros Hm. by eapply Hin.
Qed.

Lemma rows_from_to_elem (pts : list Row) (a n : nat) (r : Row) :
  r ∈ rows_from_to pts a n → r ∈ pts.
Proof.
  unfold rows_from_to. intros Hr.
  apply list_elem_of_lookup in Hr as [i Hi]. apply lookup_take_Some in Hi as [Hi _].
  rewrite lookup_drop in Hi. by eapply list_elem_of_lookup_2.
Qed.

(** X5.  Every stop returned lies within the bounds of the trajectory: when
    the latitudes of all rows are between two values, so is the latitude of
    every stop, and likewise for the longitudes; the medians are numbers,
    never [nan]. *)
Theorem X5_stops_within_bounds (measure_distance : Q * Q → Q * Q → Q) (cfg : Config)
    (pts : list Row) (south north west east : Q) (ss : list Stop) (ls : list Z) :
  (∀ r, r ∈ pts → (south <= lat r <= north)%Q ∧ (west <= lng r <= east)%Q) →
  stops_array measure_distance cfg pts = Ok (ss, ls) →
  ∀ s, s ∈ ss →
    ∃ la lo, s_lat s = Some la ∧ s_lng s = Some lo ∧
             (south <= la <= north)%Q ∧ (west <= lo <= east)%Q.
Proof.
  intros Hbox Hout s Hs.
  apply (output_emitted _ _ _ _ _ _ Hout) in Hs as (n & Hn & Hem).
  destruct (emitted_at_emission _ _ _ _ _ Hem) as [est Hemi].
  destruct (emission_rows _ _ _ _ _ _ Hemi) as (m & Hm & _ & _ & Hla & Hlo & _).
  pose proof (anchor_at_le measure_distance cfg pts n) as Hle.
  set (a := anchor_at measure_distance cfg pts n) in *.
  assert (Hne : rows_from_to pts a m ≠ []).
  { intros Hnil. apply (f_equal length) in Hnil.
    rewrite rows_from_to_length in Hnil by lia. simpl in Hnil. lia. }
  destruct (np_median_is_Some (lat <$> rows_from_to pts a m)) as [la Hla'];
    [by intros ?%fmap_nil_inv|].
  destruct (np_median_is_Some (lng <$> rows_from_to pts a m)) as [lo Hlo'];
    [by intros ?%fmap_nil_inv|].
  exists la, lo. rewrite Hla, Hlo. split; [done|]. split; [done|]. split.
  - apply (np_median_bounds (lat <$> rows_from_to pts a m)); [|done].
    intros x Hx. apply list_elem_of_fmap in Hx as (r & -> & Hr).
    apply Hbox. by eapply rows_from_to_elem.
  - apply (np_median_bounds (lng <$> rows_from_to pts a m)); [|done].
    intros x Hx. apply list_elem_of_fmap in Hx as (r & -> & Hr).
    apply Hbox. by eapply rows_from_to_elem.
Qed.

(** X5, witness: [walk_stay], all of whose rows lie between the latitudes 0
    and 1 on the meridian 0. *)
Lemma X5_stops_within_bounds_witness :
  ∃ s, stops_array meridian_distance cfg_plain walk_stay = Ok ([s], [minute 35]) ∧
       ∃ la lo, s_lat s = Some la ∧ s_lng s = Some lo ∧
                (0 <= la <= 1)%Q ∧ (0 <= lo <= 0)%Q.
Proof.
  destruct (stops_array meridian_distance cfg_plain walk_stay) as [[ss ls]|e] eqn:Hout;
    [|vm_compute in Hout; discriminate].
  assert (Hbox : ∀ r, r ∈ walk_stay → (0 <= lat r <= 1)%Q ∧ (0 <= lng r <= 0)%Q).
  { intros r Hr. unfold walk_stay in Hr.
    repeat (apply elem_of_cons in Hr as [->|Hr]; [by vm_compute|]).
    by apply elem_of_nil in Hr. }
  pose proof (X5_stops_within_bounds meridian_distance cfg_plain walk_stay 0 1 0 0 ss ls
                Hbox Hout) as Hall.
  vm_compute in Hout. injection Hout as <- <-.
  eexists. split; [reflexivity|]. apply Hall. apply list_elem_of_here.
Defined.

(** X9.  [stops] on a frame that is neither multi-user nor multi-trajectory,
    with a numeric radius [r] (recorded by a compression, else the
    argument): on a sorted frame with no row it raises [IndexError]; on any
    other it returns the frame of [_stops_trajectory] for the stops that
    [_stops_array] finds with the radius [r * stop_radius_factor] (the
    columns of the sorted input, and the leaving times set as the column
    ['leaving_datetime'] when [leaving_time] is on), with the parameters of
    the input and the arguments of the call under the detection key. *)
Theorem X9_stops_ungrouped
    (measure_distance : Q * Q → Q * Q → Q)
    (sort_by_uid_and_datetime : Frame Row → Frame Row)
    (is_multi_user is_multi_trajectory : Frame Row → bool)
    (groupby_apply :
       list string → (Frame Row → result (Frame Stop)) → Frame Row → result (Frame Stop))
    (UID TID COMPRESSION_PARAMS DETECTION_PARAMS : string)
    (tdf : Frame Row) (factor minutes radius_km : Q)
    (leaving : bool) (gap_minutes : Q) (min_speed : option Q) (r : Q) :
  is_multi_user (sort_by_uid_and_datetime tdf) = false →
  is_multi_trajectory (sort_by_uid_and_datetime tdf) = false →
  resolve_spatial_radius COMPRESSION_PARAMS
    (parameters (sort_by_uid_and_datetime tdf)) radius_km = VFloat r →
  let sorted := sort_by_uid_and_datetime tdf in
  let run :=
    stops measure_distance sort_by_uid_and_datetime is_multi_user is_multi_trajectory
      groupby_apply UID TID COMPRESSION_PARAMS DETECTION_PARAMS
      tdf factor minutes radius_km leaving gap_minutes min_speed in
  (rows sorted = [] → run = Raise IndexError) ∧
  (rows sorted ≠ [] →
   ∃ ss ls,
     stops_array measure_distance
       (mkConfig (r * factor) minutes leaving gap_minutes min_speed) (rows sorted) =
       Ok (ss, ls) ∧
     run = Ok (with_provenance DETECTION_PARAMS
                 (if leaving
                  then with_column "leaving_datetime" (VTime <$> ls)
                         (mkFrame (columns sorted) ss ∅)
                  else mkFrame (columns sorted) ss ∅)
                 (parameters sorted)
                 (detection_arguments factor minutes radius_km leaving gap_minutes
                    min_speed))).
Proof.
  intros Hu Ht Hres sorted run.
  assert (Hrun : run =
            (stdf ← stops_trajectory measure_distance
                      (mkConfig (r * factor) minutes leaving gap_minutes min_speed) sorted;
             Ok (with_provenance DETECTION_PARAMS stdf (parameters sorted)
                   (detection_arguments factor minutes radius_km leaving gap_minutes
                      min_speed)))).
  { unfold run. rewrite (stops_resolved _ _ _ _ _ _ _ _ _ _ _ _ _ _ _ _ r Hres).
    by rewrite dispatch_ungrouped. }
  destruct (stops_trajectory_result measure_distance
              (mkConfig (r * factor) minutes leaving gap_minutes min_speed) sorted)
    as [Hempty Hfull].
  split.
  - intros Hnil. by rewrite Hrun, (Hempty Hnil).
  - intros Hne. destruct (Hfull Hne) as (ss & ls & Hout & _ & Htraj).
    exists ss, ls. split; [done|]. by rewrite Hrun, Htraj.
Qed.

(** X9, witness: [walk_stay] as a frame of one user with a tag column and
    no parameters, sorted already, with the radius 0.4 km and the factor
    0.5. *)
Lemma X9_stops_ungrouped_witness :
  ∃ stdf,
    stops meridian_distance (λ t, t) (λ _, false) (λ _, false) (λ _ f t, f t)
      "uid" "tid" "compress" "detect"
      (mkFrame ["tag"] walk_stay ∅) (1 # 2) 20 (4 # 10) true 1000000000000 None =
    Ok stdf ∧
    columns stdf = ["tag"; "leaving_datetime"] ∧
    s_extra <$> rows stdf = [[VStr "d"; VTime (minute 35)]] ∧
    parameters stdf =
      <["detect" := detection_arguments (1 # 2) 20 (4 # 10) true 1000000000000 None]> ∅.
Proof.
  assert (Hres : resolve_spatial_radius "compress"
                   (parameters (mkFrame ["tag"] walk_stay ∅)) (4 # 10) = VFloat (4 # 10)).
  { unfold resolve_spatial_radius. cbn [parameters]. by rewrite lookup_empty. }
  destruct (X9_stops_ungrouped meridian_distance (λ t, t) (λ _, false) (λ _, false)
              (λ _ f t, f t) "uid" "tid" "compress" "detect"
              (mkFrame ["tag"] walk_stay ∅) (1 # 2) 20 (4 # 10) true 1000000000000 None
              (4 # 10) eq_refl eq_refl Hres) as [_ Hfull].
  destruct Hfull as (ss & ls & Hout & Hrun); [discriminate|].
  eexists. split; [exact Hrun|].
  vm_compute in Hout. injection Hout as <- <-.
  split; [reflexivity|]. split; reflexivity.
Defined.

(** ** A trajectory too short for a stop *)

Lemma diff_minutes_mono (a a' b b' : Z) :
  (a' ≤ a)%Z → (b ≤ b')%Z → (diff_minutes a b <= diff_minutes a' b')%Q.
Proof.
  intros Ha Hb. unfold diff_minutes, diff_seconds.
  apply Qmult_le_compat_r; [|done].
  unfold Qle. cbn [Qnum Qden]. apply Z.mul_le_mono_nonneg_r; lia.
Qed.

Section Short.

Variable measure_distance : Q * Q → Q * Q → Q.
Variable cfg : Config.
Variable pts : list Row.

(** With no iteration that emits, the output is empty. *)
Lemma no_emission_output :
  pts ≠ [] →
  (∀ n s, ¬ emitted_at measure_distance cfg pts n s) →
  stops_array measure_distance cfg pts = Ok ([], []).
Proof.
  intros Hne Hno.
  assert (0 < length pts) as Hlen by (destruct pts; [done|simpl; lia]).
  destruct (stops_array measure_distance cfg pts) as [[ss ls]|e] eqn:Hout.
  - pose proof (output_sizes _ _ _ _ _ Hout) as [_ Hl].
    destruct ss as [|s ss].
    + destruct ls; [done|]. by destruct (leaving_time cfg).
    + exfalso. assert (Hs : s ∈ s :: ss) by apply list_elem_of_here.
      apply (output_emitted _ _ _ _ _ _ Hout) in Hs as (n & _ & Hem). by eapply Hno.
  - exfalso. unfold stops_array in Hout.
    destruct (state_at_inv measure_distance cfg pts (length pts - 1)) as (st & Hst & _); [lia|].
    by rewrite Hst in Hout.
Qed.

End Short.

(** X12.  On timestamps that never decrease, a trajectory whose last row
    comes no more than [minutes_for_a_stop] after its first row holds no
    stop: the detector returns nothing, wherever the rows lie. *)
Theorem X12_short_trajectory_no_stop (measure_distance : Q * Q → Q * Q → Q)
    (cfg : Config) (pts : list Row) :
  pts ≠ [] →
  time_ordered pts →
  (Dt_of pts 0 (length pts - 1) <= minutes_for_a_stop cfg)%Q →
  stops_array measure_distance cfg pts = Ok ([], []).
Proof.
  intros Hne Hord Hshort. apply no_emission_output; [done|].
  intros n s Hem. pose proof (emitted_at_lt _ _ _ _ _ Hem) as Hlt.
  apply emitted_at_inv in Hem as (_ & _ & _ & _ & _ & _ & _ & Hm & _).
  apply Qltb_lt in Hm.
  pose proof (anchor_at_le measure_distance cfg pts n) as Hle.
  assert (Dt_of pts (anchor_at measure_distance cfg pts n) (S n) <=
          Dt_of pts 0 (length pts - 1))%Q as Hmono.
  { unfold Dt_of. apply diff_minutes_mono; apply Hord; lia. }
  apply (Qlt_not_le _ _ Hm). exact (Qle_trans _ _ _ Hmono Hshort).
Qed.

(** X12, witness: [walk_short], 10 minutes long, with stops from 20
    minutes. *)
Lemma X12_short_trajectory_no_stop_witness :
  time_ordered walk_short ∧
  stops_array meridian_distance cfg_plain walk_short = Ok ([], []).
Proof.
  assert (Hord : time_ordered walk_short).
  { intros i j Hij Hj. simpl in Hj.
    do 3 (destruct j as [|j];
          [do 3 (destruct i as [|i]; [first [lia | by vm_compute]|]); lia|]).
    lia. }
  split; [exact Hord|].
  apply (X12_short_trajectory_no_stop meridian_distance cfg_plain walk_short);
    [discriminate|exact Hord|by vm_compute].
Defined.

(** ** Only elapsed times matter *)

Lemma diff_minutes_shift (c a b : Z) :
  diff_minutes (a + c) (b + c) = diff_minutes a b.
Proof.
  unfold diff_minutes, diff_seconds. do 2 f_equal. lia.
Qed.

Lemma py_neg_index_fmap {A B} (f : A → B) (l : list A) (j : nat) :
  py_neg_index (f <$> l) j = f <$> py_neg_index l j.
Proof.
  unfold py_neg_index. rewrite length_fmap, !list_lookup_fmap.
  destruct j as [|j].
  - by destruct (l !! 0).
  - destruct (S j <=? length l); [|done]. by destruct (l !! (length l - S j)).
Qed.

Section Shift.

Variable measure_distance : Q * Q → Q * Q → Q.
Variable cfg : Config.
Variable c : Z.

Lemma shift_accumulate (st : State) (cur : Row) :
  accumulate (shift_state c st) (shift_row c cur) = shift_state c (accumulate st cur).
Proof.
  unfold accumulate, shift_state.
  cbn [stops_l leaving_times lat_0 lon_0 t_0 sum_lat sum_lon sum_t speeds_kmh count
       lat lng dtime shift_row].
  by rewrite fmap_app.
Qed.

Lemma shift_emit (st : State) (est : Z) (lats lons : list Q) (extra : list PyVal) :
  emit cfg (shift_state c st) (est + c) lats lons extra =
  shift_state c (emit cfg st est lats lons extra).
Proof.
  unfold emit, shift_state.
  cbn [stops_l leaving_times lat_0 lon_0 t_0 sum_lat sum_lon sum_t speeds_kmh count].
  destruct (0 <? length lats); [|done].
  cbn [stops_l leaving_times lat_0 lon_0 t_0 sum_lat sum_lon sum_t speeds_kmh count].
  rewrite fmap_app. destruct (leaving_time cfg); [by rewrite fmap_app|done].
Qed.

Lemma shift_estimate (st : State) (ms : option Q) (t : Z) :
  estimate_leaving (shift_state c st) ms (t + c) =
  (λ r, ((r.1.1 + c)%Z, r.1.2, r.2)) <$> estimate_leaving st ms t.
Proof.
  unfold estimate_leaving. destruct ms as [ms|]; [|done].
  cbn [speeds_kmh sum_t sum_lat sum_lon shift_state].
  destruct (backward_scan (speeds_kmh st) ms) as [j|e]; [|done].
  cbn [mbind result_bind]. destruct (j =? 1); [done|].
  rewrite py_neg_index_fmap. by destruct (py_neg_index (sum_t st) j).
Qed.

Lemma shift_reanchor (st : State) (cur : Row) :
  reanchor (shift_state c st) (shift_row c cur) = shift_state c (reanchor st cur).
Proof. reflexivity. Qed.

Lemma shift_with_speed (st : State) (v : Q) :
  with_speed (shift_state c st) v = shift_state c (with_speed st v).
Proof. reflexivity. Qed.

(** The tail of the body, from the radius test on. *)
Lemma loop_tail_shift (prev cur : Row) (st2 : State) (Dr Dt : Q) :
  (st3 ← (if Qltb (stop_radius cfg) Dr then
            if Qltb (minutes_for_a_stop cfg) Dt then
              '(est, lats, lons) ← estimate_leaving (shift_state c st2) (min_speed_kmh cfg)
                                     (dtime cur + c);
              Ok (reanchor (emit cfg (shift_state c st2) est lats lons (other prev))
                    (shift_row c cur))
            else Ok (reanchor (shift_state c st2) (shift_row c cur))
          else Ok (shift_state c st2));
   Ok (accumulate st3 (shift_row c cur))) =
  shift_state c <$>
    (st3 ← (if Qltb (stop_radius cfg) Dr then
              if Qltb (minutes_for_a_stop cfg) Dt then
                '(est, lats, lons) ← estimate_leaving st2 (min_speed_kmh cfg) (dtime cur);
                Ok (reanchor (emit cfg st2 est lats lons (other prev)) cur)
              else Ok (reanchor st2 cur)
            else Ok st2);
     Ok (accumulate st3 cur)).
Proof.
  destruct (Qltb (stop_radius cfg) Dr);
    [|cbn [mbind result_bind fmap result_fmap]; by rewrite shift_accumulate].
  destruct (Qltb (minutes_for_a_stop cfg) Dt);
    [|cbn [mbind result_bind fmap result_fmap];
      by rewrite shift_reanchor, shift_accumulate].
  rewrite shift_estimate.
  destruct (estimate_leaving st2 (min_speed_kmh cfg) (dtime cur))
    as [[[est lats] lons]|e]; [|done].
  cbn [mbind result_bind fmap result_fmap fst snd].
  by rewrite shift_emit, shift_reanchor, shift_accumulate.
Qed.

Lemma loop_body_shift (prev cur : Row) (st : State) :
  loop_body measure_distance cfg (shift_row c prev) (shift_row c cur) (shift_state c st) =
  shift_state c <$> loop_body measure_distance cfg prev cur st.
Proof.
  unfold loop_body, is_gap. cbn [dtime lat lng other shift_row].
  rewrite diff_minutes_shift.
  destruct (Qltb (no_data_for_minutes cfg) _).
  - change (reanchor (shift_state c st) (shift_row c cur))
      with (shift_state c (reanchor st cur)).
    cbn [t_0 lat_0 lon_0 shift_state reanchor]. rewrite diff_minutes_shift.
    destruct (speed_sample _ _) as [v|e]; [|done]. cbn [mbind result_bind].
    apply (loop_tail_shift prev cur
             (with_speed {| stops_l := stops_l st; leaving_times := leaving_times st;
                            lat_0 := lat cur; lon_0 := lng cur; t_0 := dtime cur;
                            sum_lat := []; sum_lon := []; sum_t := [];
                            speeds_kmh := []; count := 0 |} v)).
  - cbn [t_0 lat_0 lon_0 shift_state]. rewrite diff_minutes_shift.
    destruct (speed_sample _ _) as [v|e]; [|done]. cbn [mbind result_bind].
    apply (loop_tail_shift prev cur (with_speed st v)).
Qed.

Lemma state_at_shift (pts : list Row) (n : nat) :
  state_at measure_distance cfg (shift_row c <$> pts) n =
  shift_state c <$> state_at measure_distance cfg pts n.
Proof.
  induction n as [|n IH].
  - unfold state_at. rewrite list_lookup_fmap. by destruct (pts !! 0).
  - rewrite !state_at_S, IH.
    destruct (state_at measure_distance cfg pts n) as [st|e]; [|done].
    cbn [fmap result_fmap mbind result_bind]. unfold iteration.
    rewrite !list_lookup_fmap.
    destruct (pts !! n) as [prev|]; [|done]. destruct (pts !! S n) as [cur|]; [|done].
    apply loop_body_shift.
Qed.

End Shift.

(** X10.  Only elapsed times matter to the detector: with every timestamp
    of the sequence moved by the same amount, it returns the same stops with
    their times moved by that amount, and the leaving times moved likewise
    (and it raises what it raised). *)
Theorem X10_clock_shift (measure_distance : Q * Q → Q * Q → Q) (cfg : Config)
    (c : Z) (pts : list Row) :
  stops_array measure_distance cfg (shift_row c <$> pts) =
  shift_output c <$> stops_array measure_distance cfg pts.
Proof.
  unfold stops_array. rewrite length_fmap, state_at_shift.
  by destruct (state_at measure_distance cfg pts (length pts - 1)).
Qed.

(** ** What [min_speed_kmh] can change *)

Section MinSpeed.

Variable measure_distance : Q * Q → Q * Q → Q.
Variable cfg : Config.
Variable pts : list Row.

(** Anchors do not depend on [min_speed_kmh]. *)
Lemma anchor_at_unset (n : nat) :
  anchor_at measure_distance (unset_min_speed cfg) pts n =
  anchor_at measure_distance cfg pts n.
Proof.
  induction n as [|n IH]; [done|]. cbn [anchor_at]. rewrite IH. reflexivity.
Qed.

Lemma stop_run_unset (a e : nat) :
  stop_run measure_distance cfg pts a e →
  stop_run measure_distance (unset_min_speed cfg) pts a e.
Proof.
  intros (Ha & Hlt & Hrun & Hg & Hr & Hm).
  split; [|exact (conj Hlt (conj Hrun (conj Hg (conj Hr Hm))))].
  destruct Ha as [->|(a' & -> & Hl)]; [by left|right].
  exists a'. split; [done|]. by rewrite anchor_at_unset.
Qed.

End MinSpeed.

(** X11.  Setting [min_speed_kmh] never adds a stop and never moves one: an
    iteration that emits a stop with [min_speed_kmh] set emits one with it
    unset too, with the same arrival time and the same other columns; only
    the medians and the leaving time can differ. *)
Theorem X11_min_speed_only_trims (measure_distance : Q * Q → Q * Q → Q) (cfg : Config)
    (pts : list Row) (n : nat) (s : Stop) :
  emitted_at measure_distance cfg pts n s →
  ∃ s', emitted_at measure_distance (unset_min_speed cfg) pts n s' ∧
        s_t s' = s_t s ∧ s_extra s' = s_extra s.
Proof.
  intros Hem.
  assert (Hrun : ∃ a, stop_run measure_distance cfg pts a (S n)).
  { apply (emitted_iff measure_distance cfg pts n). by exists s. }
  destruct Hrun as [a Hrun]. apply stop_run_unset in Hrun.
  assert (Hem' : ∃ s', emitted_at measure_distance (unset_min_speed cfg) pts n s').
  { apply emitted_iff. split; [by exists a|].
    apply keeps_some_None; [done|]. by destruct Hrun as (_ & [_ ?] & _). }
  destruct Hem' as [s' Hem']. exists s'. split; [done|].
  destruct (emitted_at_emission _ _ _ _ _ Hem) as [est Hemi].
  destruct (emitted_at_emission _ _ _ _ _ Hem') as [est' Hemi'].
  destruct (emission_rows _ _ _ _ _ _ Hemi) as (_ & _ & _ & _ & _ & _ & -> & -> & _).
  destruct (emission_rows _ _ _ _ _ _ Hemi') as (_ & _ & _ & _ & _ & _ & -> & -> & _).
  by rewrite anchor_at_unset.
Qed.

(** X11, witness: [walk_drift]; with the threshold 0.1 km/h the stop is at
    latitude 0, without it at latitude 0.001, both arrived at minute 0. *)
Lemma X11_min_speed_only_trims_witness :
  ∃ s s', emitted_at meridian_distance cfg_slow walk_drift 2 s ∧
          emitted_at meridian_distance (unset_min_speed cfg_slow) walk_drift 2 s' ∧
          s_t s' = s_t s ∧ s_extra s' = s_extra s.
Proof.
  destruct (state_at meridian_distance cfg_slow walk_drift 2) as [st|e] eqn:H2;
    [|vm_compute in H2; discriminate].
  destruct (state_at meridian_distance cfg_slow walk_drift 3) as [st'|e] eqn:H3;
    [|vm_compute in H3; discriminate].
  assert (Hs : ∃ s, stops_l st' = stops_l st ++ [s]).
  { vm_compute in H2, H3. injection H2 as <-. injection H3 as <-. by eexists. }
  destruct Hs as [s Hs].
  assert (Hem : emitted_at meridian_distance cfg_slow walk_drift 2 s) by (by exists st, st').
  destruct (X11_min_speed_only_trims meridian_distance cfg_slow walk_drift 2 s Hem)
    as (s' & Hem' & Ht & Hx).
  exists s, s'. split; [exact Hem|]. split; [exact Hem'|]. split; assumption.
Defined.
